(** * A shallow embedding of gitki's versioned document store

    Model of [src/gitki/gitki.py]: the git helpers ([git_index_head],
    [git_stage_changes], [git_remove], [git_commit], [git_cherry_pick],
    [git_reset]), the [GitWorktree] context manager and the [Gitki] methods
    [index_head], [get_contents_at_revision], [history] and [update_file].

    git itself is modelled as a state transformer over an object database,
    the shared repository's HEAD and its lock files, and the registered
    linked worktrees; every git invocation is one atomic transition, except
    the cherry-pick into the shared repository, whose [index.lock]
    acquisition and release are separate transitions so that two
    overlapping invocations can be observed. *)

From Stdlib Require Import ZArith Lia Ascii.
From stdpp Require Import base gmap strings list fin_maps.

(* ================================================================= *)
(** ** Python values and exceptions *)

Module Py.

(** The directory a git command runs in ([git -C <dir>]): the shared
    repository ([self.repo]) or a linked worktree directory. *)
Inductive loc := LRepo | LWorktree (d : nat).

(** The git subcommand a [subprocess.CalledProcessError] reports. *)
Inductive gitcmd :=
  | GitShow | GitLog | GitWorktreeAdd | GitWorktreeRemove | GitAdd | GitRm
  | GitCommit | GitReset | GitCherryPick.

(** The exception classes the modelled code can raise. *)
Inductive exn :=
  | CalledProcessError (dir : loc) (cmd : gitcmd) (returncode : Z)
  | NotFoundError
  | UnicodeDecodeError
  | UnicodeEncodeError
  | UnicodeError
  | ValueError
  | RuntimeError
  | OSError.

(** A Python call either returns or raises; [context] is the exception's
    [__context__] (the exception being handled when it was raised). *)
Inductive result (A : Type) :=
  | Ok (a : A)
  | Raise (e : exn) (context : option exn).
Arguments Ok {A} a.
Arguments Raise {A} e context.

Inductive pyval := PNone | PStr (s : string).

End Py.
Import Py.

(* ================================================================= *)
(** ** Text codecs: [str] <-> UTF-8 [bytes] *)

Module Codec.
Local Open Scope Z_scope.

(** A Python [str] is a list of code points, [bytes] a list of octets. *)
Abbreviation pystr := (list Z).
Abbreviation pybytes := (list Z).

Definition in_range (lo b hi : Z) : bool := (lo <=? b) && (b <=? hi).
Definition is_cont (b : Z) : bool := in_range 0x80 b 0xBF.

(** Admissible second byte of a three- and four-byte sequence
    (Unicode Table 3-7, as CPython's decoder checks it). *)
Definition second_ok3 (b0 b1 : Z) : bool :=
  if b0 =? 0xE0 then in_range 0xA0 b1 0xBF
  else if b0 =? 0xED then in_range 0x80 b1 0x9F
  else is_cont b1.

Definition second_ok4 (b0 b1 : Z) : bool :=
  if b0 =? 0xF0 then in_range 0x90 b1 0xBF
  else if b0 =? 0xF4 then in_range 0x80 b1 0x8F
  else is_cont b1.

(** CPython's UTF-8 decoder: the input is cut into units, each either a
    decoded code point ([Some c]) or one maximal invalid subpart ([None]),
    which the error handler is called on once. *)
Fixpoint utf8_units (bs : pybytes) : list (option Z) :=
  match bs with
  | [] => []
  | b0 :: r0 =>
    if b0 <? 0x80 then Some b0 :: utf8_units r0
    else if in_range 0xC2 b0 0xDF then
      match r0 with
      | [] => [None]
      | b1 :: r1 =>
        if is_cont b1 then Some ((b0 - 0xC0) * 64 + (b1 - 0x80)) :: utf8_units r1
        else None :: utf8_units r0
      end
    else if in_range 0xE0 b0 0xEF then
      match r0 with
      | [] => [None]
      | b1 :: r1 =>
        if second_ok3 b0 b1 then
          match r1 with
          | [] => [None]
          | b2 :: r2 =>
            if is_cont b2
            then Some ((b0 - 0xE0) * 4096 + (b1 - 0x80) * 64 + (b2 - 0x80))
                   :: utf8_units r2
            else None :: utf8_units r1
          end
        else None :: utf8_units r0
      end
    else if in_range 0xF0 b0 0xF4 then
      match r0 with
      | [] => [None]
      | b1 :: r1 =>
        if second_ok4 b0 b1 then
          match r1 with
          | [] => [None]
          | b2 :: r2 =>
            if is_cont b2 then
              match r2 with
              | [] => [None]
              | b3 :: r3 =>
                if is_cont b3
                then Some ((b0 - 0xF0) * 262144 + (b1 - 0x80) * 4096
                           + (b2 - 0x80) * 64 + (b3 - 0x80)) :: utf8_units r3
                else None :: utf8_units r2
              end
            else None :: utf8_units r1
          end
        else None :: utf8_units r0
      end
    else None :: utf8_units r0
  end.

(** The [errors=] argument of [bytes.decode] / [subprocess.run]. *)
Inductive errors := Strict | Replace.

Definition replacement_char : Z := 0xFFFD.

(** [bs.decode('utf-8', errors)]. *)
Definition decode (e : errors) (bs : pybytes) : result pystr :=
  let us := utf8_units bs in
  match e with
  | Strict =>
    if forallb (fun u => bool_decide (is_Some u)) us
    then Ok (omap id us)
    else Raise UnicodeDecodeError None
  | Replace => Ok (map (fun u => default replacement_char u) us)
  end.

(** The codec an [encoding] argument names: ['utf-8'], the default and
    the only one gitki passes, or ['idna'], whose decoder accepts only
    [errors='strict'] and raises [UnicodeError] for any other error
    handler before it looks at the input. *)
Inductive encoding := Utf8 | Idna.

(** [bs.decode(encoding, 'replace')]. *)
Definition decode_replace (enc : encoding) (bs : pybytes) : result pystr :=
  match enc with
  | Utf8 => decode Replace bs
  | Idna => Raise UnicodeError None
  end.

(** [s.encode('utf-8')] (strict): lone surrogates cannot be encoded. *)
Definition encode_cp (c : Z) : option pybytes :=
  if c <? 0 then None
  else if c <? 0x80 then Some [c]
  else if c <? 0x800 then Some [0xC0 + c / 64; 0x80 + c mod 64]
  else if c <? 0x10000 then
    if in_range 0xD800 c 0xDFFF then None
    else Some [0xE0 + c / 64 / 64; 0x80 + (c / 64) mod 64; 0x80 + c mod 64]
  else if c <=? 0x10FFFF then
    Some [0xF0 + c / 64 / 64 / 64; 0x80 + (c / 64 / 64) mod 64;
          0x80 + (c / 64) mod 64; 0x80 + c mod 64]
  else None.

Fixpoint encode (s : pystr) : option pybytes :=
  match s with
  | [] => Some []
  | c :: r =>
    match encode_cp c, encode r with
    | Some b, Some br => Some (b ++ br)
    | _, _ => None
    end
  end.

(** Reading a text-mode pipe ([io.TextIOWrapper] with [newline=None], as
    [subprocess.run(..., encoding=...)] sets it up): universal newlines,
    ["\r\n"] and a lone ["\r"] both read as ["\n"]. *)
Fixpoint universal_newlines (s : pystr) : pystr :=
  match s with
  | 13 :: 10 :: r => 10 :: universal_newlines r
  | 13 :: r => 10 :: universal_newlines r
  | c :: r => c :: universal_newlines r
  | [] => []
  end.

End Codec.

(* ================================================================= *)
(** ** git, as the code drives it *)

Module Vcs.
Import Codec.

(** A snapshot: tracked path -> file bytes. *)
Abbreviation tree := (gmap string pybytes).

Record commit := mkCommit {
  c_parent : option nat;
  c_tree : tree;
  c_author : string * string;
  c_message : string }.

(** A linked worktree ([git worktree add -d]): detached HEAD, and its
    working tree, which the code only changes together with the index
    ([git add], [git rm], [reset --hard]); [wt_conflict] marks unmerged
    paths left by a failed cherry-pick. *)
Record worktree := mkWorktree {
  wt_head : nat;
  wt_files : tree;
  wt_conflict : bool }.

(** The on-disk state the code works on.  Object ids are handed out from
    [st_next]; [st_cp_pending] is an interrupted (conflicted) cherry-pick in
    the shared repository; [st_index_lock] is its [index.lock];
    [st_readable] is false when git cannot use the repository at all (I/O,
    permission or corruption failure); [st_dirs] are the temporary
    directories on disk, named from [st_next_dir]. *)
Record State := mkState {
  st_objects : gmap nat commit;
  st_next : nat;
  st_head : nat;
  st_cp_pending : bool;
  st_index_lock : bool;
  st_readable : bool;
  st_worktrees : gmap nat worktree;
  st_dirs : gset nat;
  st_next_dir : nat }.

Definition add_commit (st : State) (c : commit) : State * nat :=
  (mkState (<[st_next st := c]> (st_objects st)) (S (st_next st)) (st_head st)
     (st_cp_pending st) (st_index_lock st) (st_readable st) (st_worktrees st)
     (st_dirs st) (st_next_dir st), st_next st).

Definition set_head (st : State) (h : nat) : State :=
  mkState (st_objects st) (st_next st) h (st_cp_pending st) (st_index_lock st)
    (st_readable st) (st_worktrees st) (st_dirs st) (st_next_dir st).

Definition set_lock (st : State) (b : bool) : State :=
  mkState (st_objects st) (st_next st) (st_head st) (st_cp_pending st) b
    (st_readable st) (st_worktrees st) (st_dirs st) (st_next_dir st).

Definition set_cp_pending (st : State) (b : bool) : State :=
  mkState (st_objects st) (st_next st) (st_head st) b (st_index_lock st)
    (st_readable st) (st_worktrees st) (st_dirs st) (st_next_dir st).

Definition set_worktree (st : State) (d : nat) (w : worktree) : State :=
  mkState (st_objects st) (st_next st) (st_head st) (st_cp_pending st)
    (st_index_lock st) (st_readable st) (<[d := w]> (st_worktrees st))
    (st_dirs st) (st_next_dir st).

Definition del_worktree (st : State) (d : nat) : State :=
  mkState (st_objects st) (st_next st) (st_head st) (st_cp_pending st)
    (st_index_lock st) (st_readable st) (delete d (st_worktrees st))
    (st_dirs st) (st_next_dir st).

Definition rm_dir (st : State) (d : nat) : State :=
  mkState (st_objects st) (st_next st) (st_head st) (st_cp_pending st)
    (st_index_lock st) (st_readable st) (st_worktrees st)
    (st_dirs st ∖ {[d]}) (st_next_dir st).

(** [tempfile.mkdtemp()]: a fresh directory. *)
Definition mkdtemp (st : State) : State * nat :=
  (mkState (st_objects st) (st_next st) (st_head st) (st_cp_pending st)
     (st_index_lock st) (st_readable st) (st_worktrees st)
     ({[st_next_dir st]} ∪ st_dirs st) (S (st_next_dir st)), st_next_dir st).

(** Revisions as the code passes them: ['HEAD'] or an object id. *)
Inductive revspec := HEAD | Rev (r : nat).

Definition resolve (st : State) (rs : revspec) : option nat :=
  match rs with
  | HEAD => Some (st_head st)
  | Rev r => match st_objects st !! r with Some _ => Some r | None => None end
  end.

Definition tree_at (st : State) (r : nat) : option tree :=
  c_tree <$> st_objects st !! r.

Definition parent_tree (st : State) (c : commit) : tree :=
  match c_parent c with
  | Some p => default ∅ (tree_at st p)
  | None => ∅
  end.

(** The outcome of one git invocation: its new state and output, or its
    (possibly changed) state and non-zero exit status. *)
Inductive gres (A : Type) :=
  | GOk (st : State) (a : A)
  | GErr (st : State) (returncode : Z).
Arguments GOk {A} st a.
Arguments GErr {A} st returncode.

(** [git -C repo show <rev>:<path>]: the file's bytes; [None] is a
    non-zero exit (unknown revision, path absent there, or a repository
    git cannot read). *)
Definition git_show (st : State) (rs : revspec) (path : string) : option pybytes :=
  if st_readable st then
    r ← resolve st rs; t ← tree_at st r; t !! path
  else None.

(** [git -C <dir> log -n1 --format=%H]. *)
Definition git_log_head (st : State) (l : loc) : gres nat :=
  if st_readable st then
    match l with
    | LRepo => GOk st (st_head st)
    | LWorktree d =>
      match st_worktrees st !! d with
      | Some w => GOk st (wt_head w)
      | None => GErr st 128
      end
    end
  else GErr st 128.

(** No modified, staged or untracked file and no unmerged path. *)
Definition is_clean (st : State) (w : worktree) : bool :=
  negb (wt_conflict w) && bool_decide (tree_at st (wt_head w) = Some (wt_files w)).

(** [git -C repo worktree add -d <dir> <rev>]. *)
Definition git_worktree_add (st : State) (d : nat) (rs : revspec) : gres unit :=
  if st_readable st then
    match st_worktrees st !! d with
    | Some _ => GErr st 128
    | None =>
      match resolve st rs with
      | Some r =>
        match tree_at st r with
        | Some t => GOk (set_worktree st d (mkWorktree r t false)) tt
        | None => GErr st 128
        end
      | None => GErr st 128
      end
    end
  else GErr st 128.

(** [git -C repo worktree remove <dir>] (no [--force]): git refuses a
    worktree with modified, untracked or unmerged files; otherwise it
    unregisters the worktree and deletes its directory. *)
Definition git_worktree_remove (st : State) (d : nat) : gres unit :=
  if st_readable st then
    match st_worktrees st !! d with
    | Some w =>
      if is_clean st w then GOk (rm_dir (del_worktree st d) d) tt else GErr st 128
    | None => GErr st 128
    end
  else GErr st 128.

(** [git rm <path>] in a worktree: fails unless the path is tracked.  The
    path is taken literally: git's pathspec wildcards and magic are not
    modelled (see [plain_name]). *)
Definition git_rm (st : State) (d : nat) (path : string) : gres unit :=
  match st_worktrees st !! d with
  | Some w =>
    match wt_files w !! path with
    | Some _ =>
      GOk (set_worktree st d (mkWorktree (wt_head w) (delete path (wt_files w))
                                (wt_conflict w))) tt
    | None => GErr st 128
    end
  | None => GErr st 128
  end.

(** [git commit -m <message>] in a worktree, followed by
    [git_index_head(worktree)]: the new commit's id.  Exits 1 when nothing
    is staged. *)
Definition git_commit_wt (st : State) (d : nat) (message : string)
    (author : string * string) : gres nat :=
  match st_worktrees st !! d with
  | Some w =>
    if wt_conflict w then GErr st 128
    else if bool_decide (tree_at st (wt_head w) = Some (wt_files w)) then GErr st 1
    else
      let '(st1, r) := add_commit st (mkCommit (Some (wt_head w)) (wt_files w) author message) in
      GOk (set_worktree st1 d (mkWorktree r (wt_files w) false)) r
  | None => GErr st 128
  end.

(** [git reset --hard <rev>] in a worktree. *)
Definition git_reset (st : State) (d : nat) (r : nat) : gres unit :=
  match st_worktrees st !! d, tree_at st r with
  | Some _, Some t => GOk (set_worktree st d (mkWorktree r t false)) tt
  | _, _ => GErr st 128
  end.

(** Three-way merge of one path at file granularity: base [b], ours [o],
    theirs [t]; [None] is a conflict.  This agrees with git's line merge
    when at most one side changed the path or both made the same change
    (a clean merge for both), and when both sides rewrote the single line
    of a one-line document differently (a conflict for both, see
    [line_conflict]).  It does not merge edits of different lines of one
    document, which git applies cleanly, so statements that depend on a
    conflict assume [line_conflict]. *)
Definition three_way (b o t : option pybytes) : option (option pybytes) :=
  if decide (b = t) then Some o
  else if decide (o = b) then Some t
  else if decide (o = t) then Some o
  else None.

Definition merge_trees (b o t : tree) : gmap string (option (option pybytes)) :=
  merge (fun bt o' => let '(b', t') := default (None, None) bt in
                      Some (three_way b' o' t'))
        (merge (fun b' t' => Some (b', t')) b t) o.

Definition cherry_pick_tree (b o t : tree) : option tree :=
  let m := merge_trees b o t in
  if bool_decide (map_Forall (fun _ v => v ≠ None) m) then Some (omap mjoin m)
  else None.

(** Replaying commit [r] onto commit [onto]. *)
Inductive pick := Picked (nc : commit) | PickConflict | PickEmpty.

Definition pick_onto (st : State) (r onto : nat) : option pick :=
  c ← st_objects st !! r;
  ours ← tree_at st onto;
  Some (match cherry_pick_tree (parent_tree st c) ours (c_tree c) with
        | None => PickConflict
        | Some t =>
          if bool_decide (t = ours) then PickEmpty
          else Picked (mkCommit (Some onto) t (c_author c) (c_message c))
        end).

(** [git cherry-pick <rev>] in a worktree, followed by
    [git_index_head(worktree)].  A conflict leaves unmerged paths. *)
Definition git_cherry_pick_wt (st : State) (d : nat) (r : nat) : gres nat :=
  match st_worktrees st !! d with
  | Some w =>
    match pick_onto st r (wt_head w) with
    | Some (Picked nc) =>
      let '(st1, c) := add_commit st nc in
      GOk (set_worktree st1 d (mkWorktree c (c_tree nc) false)) c
    | Some PickConflict =>
      GErr (set_worktree st d (mkWorktree (wt_head w) (wt_files w) true)) 1
    | Some PickEmpty => GErr st 1
    | None => GErr st 128
    end
  | None => GErr st 128
  end.

(** [git -C repo cherry-pick <rev>], first half: git refuses to start
    while unmerged paths are left, and takes [index.lock], dying if another
    git process holds it. *)
Definition git_cherry_pick_begin (st : State) : gres unit :=
  if st_readable st && negb (st_cp_pending st) && negb (st_index_lock st)
  then GOk (set_lock st true) tt
  else GErr st 128.

(** Second half: merge onto the current HEAD, advance HEAD, release the
    lock.  A conflict leaves the shared repository mid-cherry-pick. *)
Definition git_cherry_pick_finish (st : State) (r : nat) : gres unit :=
  match pick_onto st r (st_head st) with
  | Some (Picked nc) =>
    let '(st1, c) := add_commit st nc in
    GOk (set_head (set_lock st1 false) c) tt
  | Some PickConflict => GErr (set_cp_pending (set_lock st false) true) 1
  | Some PickEmpty => GErr (set_lock st false) 1
  | None => GErr (set_lock st false) 128
  end.

End Vcs.

(* ================================================================= *)
(** ** The [Gitki] store *)

Module Gitki.
Import Codec Vcs.

(** [Gitki.index_head]: a fresh [git log -n1] on the shared repository;
    the class keeps no copy of the head. *)
Definition index_head (st : State) : gres nat := git_log_head st LRepo.

(** [Gitki.get_contents_at_revision(name, revision)] with the default
    [encoding='utf-8']: [git show] with [errors='replace'] in text mode;
    any [CalledProcessError] becomes [NotFoundError] (raised inside the
    [except] clause, so with the process error as its context). *)
Definition get_contents_at_revision (st : State) (name : string)
    (revision : revspec) : result pystr :=
  match git_show st revision name with
  | Some out =>
    match decode Replace out with
    | Ok s => Ok (universal_newlines s)
    | Raise e c => Raise e c
    end
  | None => Raise NotFoundError (Some (CalledProcessError LRepo GitShow 128))
  end.

Definition has_nul (s : string) : bool :=
  existsb (fun ch => Ascii.eqb ch zero) (String.list_ascii_of_string s).

(** [Gitki.get_contents_at_revision(name, revision, encoding)] with the
    failures of [subprocess.run] itself: it raises [ValueError] when the
    argument ['{}:{}'.format(revision, name)] holds a NUL character, before
    starting anything, and [OSError] ([FileNotFoundError]) when the git
    executable cannot be started ([git_found = false]); neither is a
    [CalledProcessError], so both escape the [except].  [communicate]
    decodes the output before the exit status is checked.  The revision
    is ['HEAD'] or a commit id, neither of which holds a NUL.
    [get_contents_at_revision] above is this call once git has started,
    with the default encoding. *)
Definition get_contents_call (git_found : bool) (st : State) (name : string)
    (revision : revspec) (enc : encoding) : result pystr :=
  if has_nul name then Raise ValueError None
  else if negb git_found then Raise OSError None
  else
    match decode_replace enc (default [] (git_show st revision name)) with
    | Raise e c => Raise e c
    | Ok s =>
      match git_show st revision name with
      | Some _ => Ok (universal_newlines s)
      | None => Raise NotFoundError (Some (CalledProcessError LRepo GitShow 128))
      end
    end.

(** The [contents] argument of [update_file]: [None] deletes, otherwise a
    [str] or [bytes] value. *)
Inductive contents := CStr (s : pystr) | CBytes (b : pybytes).

(** [git_stage_changes(worktree, path, contents)]: [open(fpath, 'w' or
    'wb')] creates or truncates the file, [f.write] encodes a [str] (UTF-8
    locale; on POSIX ['\n'] is written as is), then [git add].  A [str]
    that cannot be encoded raises from [f.write], after the file was
    truncated. *)
Definition git_stage_changes (st : State) (d : nat) (path : string)
    (c : contents) : State * option exn :=
  match st_worktrees st !! d with
  | Some w =>
    let put bs := set_worktree st d
          (mkWorktree (wt_head w) (<[path := bs]> (wt_files w)) (wt_conflict w)) in
    match c with
    | CBytes bs => (put bs, None)
    | CStr s =>
      match encode s with
      | Some bs => (put bs, None)
      | None => (put [], Some UnicodeEncodeError)
      end
    end
  | None => (st, Some OSError)
  end.

(** Where a call of [update_file] is.  The phases follow the source
    line by line:
    - [PMkdtemp], [PWorktreeAdd]: [GitWorktree.__enter__];
    - [PStage]: [git_remove] or [git_stage_changes];
    - [PCommit]: [git_commit(worktree, message, author)];
    - [PIndexHead], [PReset]: [git_reset(worktree, self.index_head)];
    - [PCherryPickWt]: [new_rev = git_cherry_pick(worktree, new_rev)];
    - [PPublishBegin], [PPublishFinish], [PPublishHead]:
      [git_cherry_pick(self.repo, new_rev)], whose result is discarded;
    - [PExit]: [GitWorktree.__exit__];
    - [PDone]: the call returned or raised. *)
Inductive phase :=
  | PMkdtemp | PWorktreeAdd | PStage | PCommit | PIndexHead | PReset
  | PCherryPickWt | PPublishBegin | PPublishFinish | PPublishHead | PExit
  | PDone (o : result pyval).

(** The frame of one [update_file] call: its arguments and locals. *)
Record Thread := mkThread {
  th_name : string;
  th_author : string * string;
  th_contents : option contents;
  th_revision : revspec;
  th_message : string;
  th_phase : phase;
  th_dir : nat;              (** [worktree], the session's directory *)
  th_new_rev : nat;          (** [new_rev] *)
  th_head : nat;             (** the value [self.index_head] returned *)
  th_published : nat;       (** the discarded result of the last cherry-pick *)
  th_pending : option exn }. (** the exception the [with] body raised *)

Definition goto (th : Thread) (p : phase) : Thread :=
  mkThread (th_name th) (th_author th) (th_contents th) (th_revision th)
    (th_message th) p (th_dir th) (th_new_rev th) (th_head th)
    (th_published th) (th_pending th).

(** The [with] body raised [e]: run [__exit__]. *)
Definition raise_in_body (th : Thread) (e : exn) : Thread :=
  mkThread (th_name th) (th_author th) (th_contents th) (th_revision th)
    (th_message th) PExit (th_dir th) (th_new_rev th) (th_head th)
    (th_published th) (Some e).

Definition set_dir (th : Thread) (d : nat) : Thread :=
  mkThread (th_name th) (th_author th) (th_contents th) (th_revision th)
    (th_message th) (th_phase th) d (th_new_rev th) (th_head th)
    (th_published th) (th_pending th).

Definition set_new_rev (th : Thread) (r : nat) : Thread :=
  mkThread (th_name th) (th_author th) (th_contents th) (th_revision th)
    (th_message th) (th_phase th) (th_dir th) r (th_head th)
    (th_published th) (th_pending th).

Definition set_th_head (th : Thread) (h : nat) : Thread :=
  mkThread (th_name th) (th_author th) (th_contents th) (th_revision th)
    (th_message th) (th_phase th) (th_dir th) (th_new_rev th) h
    (th_published th) (th_pending th).

Definition set_published (th : Thread) (h : nat) : Thread :=
  mkThread (th_name th) (th_author th) (th_contents th) (th_revision th)
    (th_message th) (th_phase th) (th_dir th) (th_new_rev th) (th_head th)
    h (th_pending th).

(** [if not message: message = 'Update {}'.format(name)]. *)
Definition commit_message (name message : string) : string :=
  if String.eqb message "" then "Update " ++ name else message.

(** One atomic step of an [update_file] call; every git invocation is
    run with [check=True], so a non-zero exit raises
    [CalledProcessError]. *)
Definition step (st : State) (th : Thread) : State * Thread :=
  let d := th_dir th in
  match th_phase th with
  | PMkdtemp =>
    let '(st1, d1) := mkdtemp st in (st1, goto (set_dir th d1) PWorktreeAdd)
  | PWorktreeAdd =>
    (* [__enter__] raising: the [with] statement does not call [__exit__] *)
    match git_worktree_add st d (th_revision th) with
    | GOk st1 _ => (st1, goto th PStage)
    | GErr st1 rc =>
      (st1, goto th (PDone (Raise (CalledProcessError LRepo GitWorktreeAdd rc) None)))
    end
  | PStage =>
    match th_contents th with
    | None =>
      match git_rm st d (th_name th) with
      | GOk st1 _ => (st1, goto th PCommit)
      | GErr st1 rc => (st1, raise_in_body th (CalledProcessError (LWorktree d) GitRm rc))
      end
    | Some c =>
      match git_stage_changes st d (th_name th) c with
      | (st1, None) => (st1, goto th PCommit)
      | (st1, Some e) => (st1, raise_in_body th e)
      end
    end
  | PCommit =>
    match git_commit_wt st d (commit_message (th_name th) (th_message th)) (th_author th) with
    | GOk st1 r => (st1, goto (set_new_rev th r) PIndexHead)
    | GErr st1 rc => (st1, raise_in_body th (CalledProcessError (LWorktree d) GitCommit rc))
    end
  | PIndexHead =>
    match index_head st with
    | GOk st1 h => (st1, goto (set_th_head th h) PReset)
    | GErr st1 rc => (st1, raise_in_body th (CalledProcessError LRepo GitLog rc))
    end
  | PReset =>
    match git_reset st d (th_head th) with
    | GOk st1 _ => (st1, goto th PCherryPickWt)
    | GErr st1 rc => (st1, raise_in_body th (CalledProcessError (LWorktree d) GitReset rc))
    end
  | PCherryPickWt =>
    match git_cherry_pick_wt st d (th_new_rev th) with
    | GOk st1 r => (st1, goto (set_new_rev th r) PPublishBegin)
    | GErr st1 rc => (st1, raise_in_body th (CalledProcessError (LWorktree d) GitCherryPick rc))
    end
  | PPublishBegin =>
    match git_cherry_pick_begin st with
    | GOk st1 _ => (st1, goto th PPublishFinish)
    | GErr st1 rc => (st1, raise_in_body th (CalledProcessError LRepo GitCherryPick rc))
    end
  | PPublishFinish =>
    match git_cherry_pick_finish st (th_new_rev th) with
    | GOk st1 _ => (st1, goto th PPublishHead)
    | GErr st1 rc => (st1, raise_in_body th (CalledProcessError LRepo GitCherryPick rc))
    end
  | PPublishHead =>
    match git_log_head st LRepo with
    | GOk st1 h => (st1, goto (set_published th h) PExit)
    | GErr st1 rc => (st1, raise_in_body th (CalledProcessError LRepo GitLog rc))
    end
  | PExit =>
    (* [GitWorktree.__exit__]: [worktree remove] with [check=True], then
       [TemporaryDirectory.__exit__], which ignores a directory already
       gone; the body's exception, if any, then propagates *)
    match git_worktree_remove st d with
    | GOk st1 _ =>
      (rm_dir st1 d,
       goto th (PDone (match th_pending th with
                       | None => Ok PNone
                       | Some e => Raise e None
                       end)))
    | GErr st1 rc =>
      (st1, goto th (PDone (Raise (CalledProcessError LRepo GitWorktreeRemove rc)
                              (th_pending th))))
    end
  | PDone _ => (st, th)
  end.

Fixpoint run_thread (fuel : nat) (st : State) (th : Thread) : State * Thread :=
  match fuel with
  | O => (st, th)
  | S f =>
    match th_phase th with
    | PDone _ => (st, th)
    | _ => let '(st1, th1) := step st th in run_thread f st1 th1
    end
  end.

(** A call [update_file(name, author, contents, revision, message)]
    (an omitted message is the empty string). *)
Definition call (name : string) (author : string * string)
    (contents : option contents) (revision : revspec) (message : string) : Thread :=
  mkThread name author contents revision message PMkdtemp 0 0 0 0 None.

Definition outcome (th : Thread) : result pyval :=
  match th_phase th with
  | PDone o => o
  | _ => Raise RuntimeError None
  end.

(** [Gitki.update_file], run alone: eleven steps reach [PDone]. *)
Definition update_file_run (st : State) (name : string) (author : string * string)
    (contents : option contents) (revision : revspec) (message : string)
    : State * Thread :=
  run_thread 11 st (call name author contents revision message).

Definition update_file (st : State) (name : string) (author : string * string)
    (contents : option contents) (revision : revspec) (message : string)
    : State * result pyval :=
  let '(st1, th) := update_file_run st name author contents revision message in
  (st1, outcome th).

(** Several calls of [update_file] in flight at once (one request thread
    each), interleaved at git-invocation granularity by a schedule: the
    list of the indices of the threads that take a step. *)
Definition sched_step (p : State * list Thread) (i : nat) : State * list Thread :=
  let '(st, ths) := p in
  match ths !! i with
  | Some th => let '(st1, th1) := step st th in (st1, <[i := th1]> ths)
  | None => (st, ths)
  end.

Definition run_sched (st : State) (ths : list Thread) (sch : list nat)
    : State * list Thread :=
  fold_left sched_step sch (st, ths).

End Gitki.

(* ================================================================= *)
(** ** [Gitki.history]: parsing [git log --numstat] *)

Module History.

(** [str.isspace] on ASCII characters. *)
Definition is_space (a : ascii) : bool :=
  let n := nat_of_ascii a in
  (n =? 32) || ((9 <=? n) && (n <=? 13)) || ((28 <=? n) && (n <=? 31)).

Fixpoint drop_spaces (l : list ascii) : list ascii :=
  match l with
  | a :: r => if is_space a then drop_spaces r else l
  | [] => []
  end.

(** [str.rstrip()]. *)
Definition rstrip (s : string) : string :=
  String.string_of_list_ascii (rev (drop_spaces (rev (String.list_ascii_of_string s)))).

Fixpoint words (l : list ascii) (cur : list ascii) : list (list ascii) :=
  match l with
  | [] => match cur with [] => [] | _ => [rev cur] end
  | a :: r =>
    if is_space a then
      match cur with [] => words r [] | _ => rev cur :: words r [] end
    else words r (a :: cur)
  end.

(** [str.split()]: the maximal runs of non-whitespace characters. *)
Definition split (s : string) : list string :=
  map String.string_of_list_ascii (words (String.list_ascii_of_string s) []).

Definition digit (a : ascii) : option Z :=
  let n := nat_of_ascii a in
  if (48 <=? n) && (n <=? 57) then Some (Z.of_nat n - 48)%Z else None.

Fixpoint digits (l : list ascii) (acc : Z) (after_digit : bool) : option Z :=
  match l with
  | [] => if after_digit then Some acc else None
  | a :: r =>
    if Ascii.eqb a "_"%char then
      (if after_digit then digits r acc false else None)
    else
      match digit a with
      | Some v => digits r (acc * 10 + v)%Z true
      | None => None
      end
  end.

(** [int(s)] for a token of [str.split()]: an optional sign, then decimal
    digits with single underscores allowed between them; anything else
    raises [ValueError] ([None]). *)
Definition int_of_string (s : string) : option Z :=
  match String.list_ascii_of_string s with
  | a :: r =>
    if Ascii.eqb a "-"%char then Z.opp <$> digits r 0 false
    else if Ascii.eqb a "+"%char then digits r 0 false
    else digits (a :: r) 0 false
  | [] => None
  end.

(** The tuple [history] yields. *)
Record revision := mkRevision {
  rv_rev : string;
  rv_time : string;
  rv_author : string;
  rv_subject : string;
  rv_insertions : Z;
  rv_deletions : Z }.

(** [Gitki.history] consumed to the end, on the lines of its [git_log]
    output after [splitlines()]: the tuples it yields, and the exception
    that ends the iteration, if any.  [next(log)] at the end of the lines
    inside the generator body raises [StopIteration], which Python (PEP
    479) turns into [RuntimeError]; unpacking fewer than two fields, or
    [int] of a non-number, raises [ValueError].  The line bound to [blank]
    is not looked at. *)
Fixpoint history (log : list string) : list revision * option exn :=
  match log with
  | [] => ([], None)
  | rev :: l1 =>
    match l1 with
    | [] => ([], Some RuntimeError)
    | time :: l2 =>
      match l2 with
      | [] => ([], Some RuntimeError)
      | author :: l3 =>
        match l3 with
        | [] => ([], Some RuntimeError)
        | subject :: l4 =>
          match l4 with
          | [] => ([], Some RuntimeError)
          | _blank :: l5 =>
            match l5 with
            | [] => ([], Some RuntimeError)
            | stats :: rest =>
              match split stats with
              | insertions :: deletions :: _files =>
                match int_of_string insertions with
                | Some i =>
                  match int_of_string deletions with
                  | Some dl =>
                    let '(rs, e) := history rest in
                    (mkRevision (rstrip rev) (rstrip time) (rstrip author)
                       (rstrip subject) i dl :: rs, e)
                  | None => ([], Some ValueError)
                  end
                | None => ([], Some ValueError)
                end
              | _ => ([], Some ValueError)
              end
            end
          end
        end
      end
    end
  end.

(** A numeric-stats line: two integer fields first. *)
Definition stats_ok (line : string) : bool :=
  match split line with
  | i :: d :: _ => bool_decide (is_Some (int_of_string i)) && bool_decide (is_Some (int_of_string d))
  | _ => false
  end.

(** Modelled from the spec (section 6 and 4.4): the record shape the log
    must have, an identifier, time, author and subject line, a blank
    line, then a numeric-stats line. *)
Fixpoint spec_record_shape (log : list string) : bool :=
  match log with
  | [] => true
  | _ :: _ :: _ :: _ :: blank :: stats :: rest =>
    String.eqb blank "" && stats_ok stats && spec_record_shape rest
  | _ => false
  end.

(** What [history] actually requires of its input: complete groups of six
    lines, the sixth of each a numeric-stats line. *)
Fixpoint six_line_groups (log : list string) : bool :=
  match log with
  | [] => true
  | _ :: _ :: _ :: _ :: _ :: stats :: rest => stats_ok stats && six_line_groups rest
  | _ => false
  end.

End History.


(* ================================================================= *)
(** ** Verification model: invariants, session states and scenarios *)

Module GitkiModel.
Import Codec Vcs Gitki History.

(** The repository invariant: object ids and worktree directories are
    allocated below their counters, and HEAD names a commit. *)
Definition wf (st : State) : Prop :=
  (forall k, st_next st <= k -> st_objects st !! k = None) /\
  is_Some (st_objects st !! st_head st) /\
  (forall d, st_next_dir st <= d -> st_worktrees st !! d = None).
Definition contents_bytes (c : contents) : option pybytes :=
  match c with CBytes b => Some b | CStr s => encode s end.

Definition stage_tree (t : tree) (name : string) (c : option contents) : option tree :=
  match c with
  | None => match t !! name with Some _ => Some (delete name t) | None => None end
  | Some c => (fun bs => <[name := bs]> t) <$> contents_bytes c
  end.

(** A decidable form of [wf], for concrete repositories. *)
Definition wfb (st : State) : bool :=
  bool_decide (map_Forall (fun k (_ : commit) => k < st_next st) (st_objects st)) &&
  bool_decide (is_Some (st_objects st !! st_head st)) &&
  bool_decide (map_Forall (fun k (_ : worktree) => k < st_next_dir st) (st_worktrees st)).

(** Repository states along [update_file]: a session opened with commit
    [c] of the worktree and worktree [w]; a session opened and not
    committed; a session closed by [git worktree remove]. *)
Definition st_session (st : State) (c : commit) (w : worktree) : State :=
  mkState (<[st_next st := c]> (st_objects st)) (S (st_next st)) (st_head st)
    (st_cp_pending st) (st_index_lock st) (st_readable st)
    (<[st_next_dir st := w]> (st_worktrees st)) ({[st_next_dir st]} ∪ st_dirs st)
    (S (st_next_dir st)).

Definition pick_thread n a c rs m d N h :=
  mkThread n a c rs m PCherryPickWt d N h 0 None.

Definition st_open (st : State) (w : worktree) : State :=
  mkState (st_objects st) (st_next st) (st_head st)
    (st_cp_pending st) (st_index_lock st) (st_readable st)
    (<[st_next_dir st := w]> (st_worktrees st)) ({[st_next_dir st]} ∪ st_dirs st)
    (S (st_next_dir st)).

Definition stage_thread n a c rs m d :=
  mkThread n a c rs m PStage d 0 0 0 None.

Definition st_closed (st : State) : State :=
  mkState (st_objects st) (st_next st) (st_head st)
    (st_cp_pending st) (st_index_lock st) (st_readable st)
    (delete (st_next_dir st) (st_worktrees st)) (st_dirs st ∖ {[st_next_dir st]})
    (S (st_next_dir st)).

Section Paths.
Variables (st : State) (n : string) (a : string * string) (c : option contents) (rs : revspec) (m : string).
Let d := st_next_dir st.
Let N := st_next st.
Let h := st_head st.
Let msg := commit_message n m.
Let fin (p : result pyval) nr hd pub pend := mkThread n a c rs m (PDone p) d nr hd pub pend.

Inductive uf_path : State * Thread -> Prop :=
  | UAddFail :
      st_readable st = false \/ resolve st rs = None ->
      uf_path (fst (mkdtemp st), fin (Raise (CalledProcessError LRepo GitWorktreeAdd 128) None) 0 0 0 None)
  | URmMissing b tb :
      st_readable st = true -> resolve st rs = Some b -> tree_at st b = Some tb ->
      c = None -> tb !! n = None ->
      uf_path (st_closed st, fin (Raise (CalledProcessError (LWorktree d) GitRm 128) None) 0 0 0
                               (Some (CalledProcessError (LWorktree d) GitRm 128)))
  | UEncDirty b tb s :
      st_readable st = true -> resolve st rs = Some b -> tree_at st b = Some tb ->
      c = Some (CStr s) -> encode s = None -> tb !! n <> Some [] ->
      uf_path (st_open st (mkWorktree b (<[n := []]> tb) false),
               fin (Raise (CalledProcessError LRepo GitWorktreeRemove 128) (Some UnicodeEncodeError)) 0 0 0
                 (Some UnicodeEncodeError))
  | UEncClean b tb s :
      st_readable st = true -> resolve st rs = Some b -> tree_at st b = Some tb ->
      c = Some (CStr s) -> encode s = None -> tb !! n = Some [] ->
      uf_path (st_closed st, fin (Raise UnicodeEncodeError None) 0 0 0 (Some UnicodeEncodeError))
  | UUnchanged b tb cc bs :
      st_readable st = true -> resolve st rs = Some b -> tree_at st b = Some tb ->
      c = Some cc -> contents_bytes cc = Some bs -> tb !! n = Some bs ->
      uf_path (st_closed st, fin (Raise (CalledProcessError (LWorktree d) GitCommit 1) None) 0 0 0
                               (Some (CalledProcessError (LWorktree d) GitCommit 1)))
  | UConflict b tb files ht :
      st_readable st = true -> resolve st rs = Some b -> tree_at st b = Some tb ->
      stage_tree tb n c = Some files -> files <> tb -> tree_at st h = Some ht ->
      cherry_pick_tree tb ht files = None ->
      uf_path (set_worktree (st_session st (mkCommit (Some b) files a msg) (mkWorktree h ht false))
                 d (mkWorktree h ht true),
               fin (Raise (CalledProcessError LRepo GitWorktreeRemove 128)
                      (Some (CalledProcessError (LWorktree d) GitCherryPick 1))) N h 0
                 (Some (CalledProcessError (LWorktree d) GitCherryPick 1)))
  | UEmpty b tb files ht :
      st_readable st = true -> resolve st rs = Some b -> tree_at st b = Some tb ->
      stage_tree tb n c = Some files -> files <> tb -> tree_at st h = Some ht ->
      cherry_pick_tree tb ht files = Some ht ->
      uf_path (st_closed (fst (add_commit st (mkCommit (Some b) files a msg))),
               fin (Raise (CalledProcessError (LWorktree d) GitCherryPick 1) None) N h 0
                 (Some (CalledProcessError (LWorktree d) GitCherryPick 1)))
  | URefused b tb files ht T :
      st_readable st = true -> st_cp_pending st = true \/ st_index_lock st = true ->
      resolve st rs = Some b -> tree_at st b = Some tb ->
      stage_tree tb n c = Some files -> files <> tb -> tree_at st h = Some ht ->
      cherry_pick_tree tb ht files = Some T -> T <> ht ->
      uf_path (st_closed (fst (add_commit (fst (add_commit st (mkCommit (Some b) files a msg)))
                                 (mkCommit (Some h) T a msg))),
               fin (Raise (CalledProcessError LRepo GitCherryPick 128) None) (S N) h 0
                 (Some (CalledProcessError LRepo GitCherryPick 128)))
  | UOk b tb files ht T :
      st_readable st = true -> st_cp_pending st = false -> st_index_lock st = false ->
      resolve st rs = Some b -> tree_at st b = Some tb ->
      stage_tree tb n c = Some files -> files <> tb -> tree_at st h = Some ht ->
      cherry_pick_tree tb ht files = Some T -> T <> ht ->
      uf_path (mkState (<[S (S N) := mkCommit (Some h) T a msg]> (<[S N := mkCommit (Some h) T a msg]>
                          (<[N := mkCommit (Some b) files a msg]> (st_objects st))))
                 (S (S (S N))) (S (S N)) false false true (delete d (st_worktrees st))
                 (st_dirs st ∖ {[d]}) (S d),
               fin (Ok PNone) (S N) h (S (S N)) None).
End Paths.

(** Document names that git and the file system take literally: not
    empty, not [.], [..] or [.git], without a directory separator or a NUL
    character, without git's pathspec wildcards [*], [?], [[] and [\],
    and not starting with [:] (pathspec magic).  For other names
    [git rm] and [git add] match a pattern, [open] needs a directory and
    [subprocess] raises [ValueError]; the model takes every name
    literally, so statements whose outcome depends on it assume a plain
    name. *)
Definition special_char (ch : ascii) : bool :=
  existsb (fun k => Nat.eqb (nat_of_ascii ch) k) [0; 42; 47; 63; 91; 92].

Definition plain_name (n : string) : bool :=
  match String.list_ascii_of_string n with
  | [] => false
  | (c0 :: _) as l =>
    negb (Nat.eqb (nat_of_ascii c0) 58) && negb (existsb special_char l) &&
    negb (String.eqb n ".") && negb (String.eqb n "..") && negb (String.eqb n ".git")
  end.

(** A document of at most one line: no newline byte except a final one. *)
Definition one_line (bs : pybytes) : bool :=
  negb (existsb (fun b => Z.eqb b 10) (removelast bs)).

(** Base, ours and theirs all hold the document, each as one line, and
    the three lines differ: both sides rewrote the same line differently.
    git's line merge reports this as a conflict, as [three_way] does; for
    longer documents git merges edits of different lines where
    [three_way], which compares whole files, reports a conflict. *)
Definition line_conflict (b o t : option pybytes) : bool :=
  match b, o, t with
  | Some x, Some y, Some z =>
    one_line x && one_line y && one_line z &&
    negb (bool_decide (x = y)) && negb (bool_decide (x = z)) && negb (bool_decide (y = z))
  | _, _, _ => false
  end.

(** Concrete repositories and calls. *)

Definition auth : string * string := ("Ann", "ann@example.org").
Definition s0 : State :=
  mkState {[0 := mkCommit None {["a.txt" := [97%Z]]} auth "init"]} 1 0 false false true ∅ ∅ 1.
Definition w1 := update_file s0 "a.txt" auth (Some (CStr [98%Z])) HEAD "".
Definition s1 := fst w1.
Definition w2 := update_file s1 "a.txt" auth (Some (CStr [99%Z])) (Rev 0) "".
Definition w3 := update_file s0 "a.txt" auth (Some (CStr [98%Z; 13%Z; 10%Z])) HEAD "".
Definition del1 := update_file s1 "a.txt" auth None HEAD "".
Definition del2 := update_file (fst del1) "a.txt" auth None (Rev (st_head (fst del1))) "".
Definition log_extra_line : list string :=
  ["4f2a"; "2 days ago"; "Ann <ann@example.org>"; "Edit"; "not blank"; "1	2	a.txt"].
Definition thread_a := call "a.txt" auth (Some (CStr [98%Z])) HEAD "".
Definition thread_b := call "b.txt" auth (Some (CStr [99%Z])) HEAD "".
Definition overlap := run_sched s0 [thread_a; thread_b] (repeat 0 8 ++ repeat 1 9 ++ repeat 0 3).

Definition run1 := update_file_run s0 "a.txt" auth (Some (CStr [98%Z])) HEAD "".
Definition run2 := update_file_run s1 "a.txt" auth (Some (CStr [99%Z])) (Rev 0) "".
Definition wb := update_file s1 "b.txt" auth (Some (CStr [99%Z])) (Rev 0) "".

(** Call [a] opens its session on the head [0] and stops before
    [self.index_head]; call [b] then runs to completion and publishes. *)
Definition moved := run_sched s0 [thread_a; thread_b] (repeat 0 4 ++ repeat 1 11).
Definition moved_a := default thread_a (snd moved !! 0).

(** A repository whose document holds a byte that is not UTF-8. *)
Definition s0_bad : State :=
  mkState {[0 := mkCommit None {["a.txt" := [97%Z; 0xFF%Z]]} auth "init"]} 1 0 false false true ∅ ∅ 1.


(** [git log --numstat] output of two well-formed records, with trailing
    blanks on the header lines. *)
Definition log_two : list string :=
  ["4f2a  "; "2 days ago "; "Ann <ann@example.org>"; "Edit	"; ""; "1	2	a.txt";
   "9c1b"; "3 days ago"; "Ann <ann@example.org>"; "Create"; ""; "5	0	a.txt"].

End GitkiModel.

(* ================================================================= *)
(** ** Facts *)

Module GitkiFacts.
Import Codec Vcs Gitki History GitkiModel.

Lemma update_file_run_unfold st n a c rs m :
  update_file_run st n a c rs m = run_thread 11 st (call n a c rs m).
Proof. reflexivity. Qed.

Lemma resolve_same s1 s2 rs :
  st_objects s1 = st_objects s2 -> st_head s1 = st_head s2 -> resolve s1 rs = resolve s2 rs.
Proof. intros Ho Hh. destruct rs; cbn; rewrite ?Ho, ?Hh; reflexivity. Qed.

Ltac cbn_st := cbn [fst snd set_worktree del_worktree rm_dir set_lock set_head set_cp_pending add_commit st_objects st_next st_head st_cp_pending st_index_lock st_readable st_worktrees st_dirs st_next_dir wt_head wt_files wt_conflict c_parent c_tree c_author c_message] in *.

Lemma below_next st k : (forall k, st_next st <= k -> st_objects st !! k = None) ->
  is_Some (st_objects st !! k) -> k < st_next st.
Proof. intros W [c Hc]. destruct (decide (k < st_next st)); [done|]. rewrite W in Hc by lia. done. Qed.


Lemma merge_trees_lookup b o t i :
  merge_trees b o t !! i =
  match b !! i, o !! i, t !! i with
  | None, None, None => None
  | _, _, _ => Some (three_way (b !! i) (o !! i) (t !! i))
  end.
Proof.
  unfold merge_trees. rewrite !lookup_merge.
  destruct (b !! i), (o !! i), (t !! i); reflexivity.
Qed.

Lemma three_way_none_none : three_way None None None = Some None.
Proof. reflexivity. Qed.

Lemma cherry_pick_tree_lookup b o t T :
  cherry_pick_tree b o t = Some T -> forall i, three_way (b !! i) (o !! i) (t !! i) = Some (T !! i).
Proof.
  unfold cherry_pick_tree. case_bool_decide as Hall; [|discriminate].
  intros [= <-] i. rewrite lookup_omap, merge_trees_lookup.
  pose proof (Hall i) as Hi. rewrite merge_trees_lookup in Hi.
  destruct (b !! i) as [bi|], (o !! i) as [oi|], (t !! i) as [ti|]; cbn;
  try reflexivity; specialize (Hi _ eq_refl);
  match goal with |- three_way ?x ?y ?z = _ =>
    destruct (three_way x y z); [reflexivity|congruence] end.
Qed.

Lemma cherry_pick_tree_Some b o t :
  (forall i, is_Some (three_way (b !! i) (o !! i) (t !! i))) ->
  exists T, cherry_pick_tree b o t = Some T.
Proof.
  intros Hall. unfold cherry_pick_tree. rewrite bool_decide_true; [eauto|].
  intros i v Hv ->. rewrite merge_trees_lookup in Hv. specialize (Hall i).
  destruct (b !! i), (o !! i), (t !! i); cbn in Hv; try discriminate;
  injection Hv as Hv; rewrite Hv in Hall; destruct Hall; discriminate.
Qed.

Lemma cherry_pick_tree_None b o t i :
  three_way (b !! i) (o !! i) (t !! i) = None -> cherry_pick_tree b o t = None.
Proof.
  intros Hi. unfold cherry_pick_tree. rewrite bool_decide_false; [done|].
  intros Hall. apply (Hall i None); [|done]. rewrite merge_trees_lookup.
  destruct (b !! i), (o !! i), (t !! i); cbn -[three_way]; try rewrite Hi; try reflexivity.
  discriminate Hi.
Qed.

Lemma cherry_pick_same_base o t : cherry_pick_tree o o t = Some t.
Proof.
  destruct (cherry_pick_tree_Some o o t) as [T HT].
  { intros i. unfold three_way. repeat case_decide; first [eexists; reflexivity | congruence]. }
  rewrite HT. f_equal. apply map_eq. intros i.
  pose proof (cherry_pick_tree_lookup _ _ _ _ HT i) as Hi.
  unfold three_way in Hi. repeat case_decide; congruence.
Qed.

Lemma cherry_pick_theirs b o t T i :
  cherry_pick_tree b o t = Some T -> b !! i <> t !! i -> T !! i = t !! i.
Proof.
  intros HT Hne. pose proof (cherry_pick_tree_lookup _ _ _ _ HT i) as Hi.
  unfold three_way in Hi. repeat case_decide; congruence.
Qed.


Ltac lk := repeat (match goal with
  | H : context [<[?k:=_]> ?m !! ?k] |- _ => rewrite lookup_insert_eq in H
  | H : context [<[?k:=?v]> ?m !! ?j] |- _ => rewrite (lookup_insert_ne m k j v) in H by lia
  | |- context [<[?k:=_]> ?m !! ?k] => rewrite lookup_insert_eq
  | |- context [<[?k:=?v]> ?m !! ?j] => rewrite (lookup_insert_ne m k j v) by lia
  end).

Lemma obj_below st k t : (forall k, st_next st <= k -> st_objects st !! k = None) ->
  c_tree <$> st_objects st !! k = Some t -> k < st_next st.
Proof. intros W H. apply (below_next st); [exact W|]. destruct (st_objects st !! k); [eexists; reflexivity|discriminate]. Qed.

Lemma stage_tree_some t name c files :
  stage_tree t name (Some c) = Some files ->
  exists bs, contents_bytes c = Some bs /\ files = <[name := bs]> t.
Proof. cbn. destruct (contents_bytes c); cbn; intros; simplify_eq; eauto. Qed.

Lemma stage_tree_none t name files :
  stage_tree t name None = Some files ->
  exists x, t !! name = Some x /\ files = delete name t.
Proof. cbn. destruct (t !! name); intros; simplify_eq; eauto. Qed.

Lemma worktree_add_fwd st d rs r t :
  st_readable st = true -> st_worktrees st !! d = None -> resolve st rs = Some r -> tree_at st r = Some t ->
  git_worktree_add st d rs = GOk (set_worktree st d (mkWorktree r t false)) tt.
Proof. unfold git_worktree_add. intros R W Hr Ht. rewrite R, W, Hr, Ht. reflexivity. Qed.

Lemma git_rm_fwd st d p w x :
  st_worktrees st !! d = Some w -> wt_files w !! p = Some x ->
  git_rm st d p = GOk (set_worktree st d (mkWorktree (wt_head w) (delete p (wt_files w)) (wt_conflict w))) tt.
Proof. unfold git_rm. intros W X. rewrite W, X. reflexivity. Qed.

Lemma stage_fwd st d p c w bs :
  st_worktrees st !! d = Some w -> contents_bytes c = Some bs ->
  git_stage_changes st d p c =
    (set_worktree st d (mkWorktree (wt_head w) (<[p := bs]> (wt_files w)) (wt_conflict w)), None).
Proof.
  unfold git_stage_changes. intros W B. rewrite W.
  destruct c as [s'|b']; cbn in B; [rewrite B|injection B as <-]; reflexivity.
Qed.

Lemma commit_fwd st d msg a w :
  st_worktrees st !! d = Some w -> wt_conflict w = false ->
  tree_at st (wt_head w) <> Some (wt_files w) ->
  git_commit_wt st d msg a =
    GOk (set_worktree (fst (add_commit st (mkCommit (Some (wt_head w)) (wt_files w) a msg)))
           d (mkWorktree (st_next st) (wt_files w) false)) (st_next st).
Proof.
  unfold git_commit_wt. intros W C T. rewrite W, C, bool_decide_false by exact T. reflexivity.
Qed.

Lemma index_head_fwd st : st_readable st = true -> index_head st = GOk st (st_head st).
Proof. unfold index_head, git_log_head. intros R. rewrite R. reflexivity. Qed.

Lemma log_head_repo_fwd st : st_readable st = true -> git_log_head st LRepo = GOk st (st_head st).
Proof. unfold git_log_head. intros R. rewrite R. reflexivity. Qed.

Lemma reset_fwd st d r w t :
  st_worktrees st !! d = Some w -> tree_at st r = Some t ->
  git_reset st d r = GOk (set_worktree st d (mkWorktree r t false)) tt.
Proof. unfold git_reset. intros W T. rewrite W, T. reflexivity. Qed.

Lemma cherry_pick_wt_fwd st d r w nc :
  st_worktrees st !! d = Some w -> pick_onto st r (wt_head w) = Some (Picked nc) ->
  git_cherry_pick_wt st d r =
    GOk (set_worktree (fst (add_commit st nc)) d (mkWorktree (st_next st) (c_tree nc) false)) (st_next st).
Proof. unfold git_cherry_pick_wt. intros W P. rewrite W, P. reflexivity. Qed.

Lemma cherry_pick_begin_fwd st :
  st_readable st = true -> st_cp_pending st = false -> st_index_lock st = false ->
  git_cherry_pick_begin st = GOk (set_lock st true) tt.
Proof. unfold git_cherry_pick_begin. intros R P L. rewrite R, P, L. reflexivity. Qed.

Lemma cherry_pick_finish_fwd st r nc :
  pick_onto st r (st_head st) = Some (Picked nc) ->
  git_cherry_pick_finish st r = GOk (set_head (set_lock (fst (add_commit st nc)) false) (st_next st)) tt.
Proof. unfold git_cherry_pick_finish. intros P. rewrite P. reflexivity. Qed.

Lemma worktree_remove_fwd st d w :
  st_readable st = true -> st_worktrees st !! d = Some w -> is_clean st w = true ->
  git_worktree_remove st d = GOk (rm_dir (del_worktree st d) d) tt.
Proof. unfold git_worktree_remove. intros R W C. rewrite R, W, C. reflexivity. Qed.

Lemma run_step f st th st1 th1 :
  match th_phase th with PDone _ => False | _ => True end ->
  step st th = (st1, th1) -> run_thread (S f) st th = run_thread f st1 th1.
Proof. intros Hp Hs. cbn [run_thread]. destruct (th_phase th); try contradiction; rewrite Hs; reflexivity. Qed.

Lemma pick_onto_eq st r onto c ours :
  st_objects st !! r = Some c -> tree_at st onto = Some ours ->
  pick_onto st r onto =
    Some (match cherry_pick_tree (parent_tree st c) ours (c_tree c) with
          | None => PickConflict
          | Some t => if bool_decide (t = ours) then PickEmpty
                      else Picked (mkCommit (Some onto) t (c_author c) (c_message c))
          end).
Proof. unfold pick_onto. intros Hc Ho. rewrite Hc. cbn. rewrite Ho. reflexivity. Qed.

Section Utf8Units.
Local Open Scope Z_scope.

Ltac zif :=
  match goal with
  | |- (if ?a <? ?b then _ else _) = _ =>
      destruct (Z.ltb_spec a b); try (exfalso; lia)
  | |- (if ?a =? ?b then _ else _) = _ =>
      destruct (Z.eqb_spec a b); try (exfalso; lia)
  | |- (if (?a <=? ?b) && (?c <=? ?d) then _ else _) = _ =>
      destruct (Z.leb_spec a b); try (exfalso; lia);
      destruct (Z.leb_spec c d); try (exfalso; lia)
  | |- (if (if ?a =? ?b then _ else _) then _ else _) = _ =>
      destruct (Z.eqb_spec a b); try (exfalso; lia)
  end; cbn [andb]; cbv iota beta.

Lemma encode_cp_units c bs rest :
  encode_cp c = Some bs -> utf8_units (bs ++ rest) = Some c :: utf8_units rest.
Proof.
  unfold encode_cp. intros H.
  destruct (Z.ltb_spec c 0); [discriminate|].
  destruct (Z.ltb_spec c 0x80).
  { injection H as <-. cbn [app utf8_units]. zif. reflexivity. }
  pose proof (Z.div_mod c 64 ltac:(lia)) as D1.
  pose proof (Z.mod_pos_bound c 64 ltac:(lia)) as M1.
  remember (c / 64) as q1 eqn:Q1; remember (c mod 64) as r1 eqn:R1.
  destruct (Z.ltb_spec c 0x800).
  { injection H as <-. cbn [app utf8_units]. unfold is_cont, in_range.
    repeat zif. f_equal. f_equal. lia. }
  pose proof (Z.div_mod q1 64 ltac:(lia)) as D2.
  pose proof (Z.mod_pos_bound q1 64 ltac:(lia)) as M2.
  remember (q1 / 64) as q2 eqn:Q2; remember (q1 mod 64) as r2 eqn:R2.
  destruct (Z.ltb_spec c 0x10000).
  { unfold in_range in H.
    destruct (Z.leb_spec 0xD800 c); destruct (Z.leb_spec c 0xDFFF); cbn [andb] in H;
      try discriminate;
    injection H as <-; cbn [app utf8_units]; unfold second_ok3, is_cont, in_range;
    repeat zif; f_equal; f_equal; lia. }
  pose proof (Z.div_mod q2 64 ltac:(lia)) as D3.
  pose proof (Z.mod_pos_bound q2 64 ltac:(lia)) as M3.
  remember (q2 / 64) as q3 eqn:Q3; remember (q2 mod 64) as r3 eqn:R3.
  destruct (Z.leb_spec c 0x10FFFF); [|discriminate].
  injection H as <-; cbn [app utf8_units]; unfold second_ok4, is_cont, in_range.
  repeat zif; f_equal; f_equal; lia.
Qed.


End Utf8Units.

Lemma encode_units s bs : encode s = Some bs -> utf8_units bs = map Some s.
Proof.
  revert bs. induction s as [|c s IH]; intros bs H; cbn in H.
  - injection H as <-. reflexivity.
  - destruct (encode_cp c) as [b|] eqn:Hc; [|discriminate].
    destruct (encode s) as [br|] eqn:Hs; [|discriminate].
    injection H as <-. rewrite (encode_cp_units _ _ _ Hc). cbn. f_equal. apply IH. reflexivity.
Qed.

Lemma decode_encode e s bs : encode s = Some bs -> decode e bs = Ok s.
Proof.
  intros H. unfold decode. rewrite (encode_units _ _ H). clear H.
  destruct e.
  - assert (F : forallb (fun u => bool_decide (is_Some u)) (map Some s) = true).
    { induction s as [|c s IH]; [reflexivity|]. cbn. rewrite IH. reflexivity. }
    rewrite F. f_equal. induction s as [|c s IH]; [reflexivity|]. cbn. f_equal. apply IH. 
    cbn in F. destruct (forallb _ _); [reflexivity|discriminate].
  - f_equal. induction s as [|c s IH]; [reflexivity|]. cbn. f_equal. exact IH.
Qed.


Ltac gsimpl := cbv beta delta [set_worktree del_worktree rm_dir set_lock set_head set_cp_pending add_commit goto set_dir set_new_rev set_th_head set_published call raise_in_body];
    cbn [fst snd st_objects st_next st_head st_cp_pending st_index_lock st_readable st_worktrees st_dirs st_next_dir wt_head wt_files wt_conflict c_parent c_tree c_author c_message th_phase th_dir th_name th_author th_contents th_revision th_message th_new_rev th_head th_published th_pending].
Ltac side := unfold parent_tree, tree_at; cbn [st_objects st_next st_head st_worktrees st_readable c_parent c_tree wt_head wt_files wt_conflict]; lk.
Ltac fstep tac := erewrite run_step; [|exact I|unfold step; gsimpl; tac]; gsimpl.

Lemma git_rm_fwd_err st d p w :
  st_worktrees st !! d = Some w -> wt_files w !! p = None -> git_rm st d p = GErr st 128%Z.
Proof. unfold git_rm. intros W X. rewrite W, X. reflexivity. Qed.

Lemma cherry_pick_wt_fwd_conflict st d r w :
  st_worktrees st !! d = Some w -> pick_onto st r (wt_head w) = Some PickConflict ->
  git_cherry_pick_wt st d r = GErr (set_worktree st d (mkWorktree (wt_head w) (wt_files w) true)) 1%Z.
Proof. unfold git_cherry_pick_wt. intros W P. rewrite W, P. reflexivity. Qed.

Lemma cherry_pick_wt_fwd_empty st d r w :
  st_worktrees st !! d = Some w -> pick_onto st r (wt_head w) = Some PickEmpty ->
  git_cherry_pick_wt st d r = GErr st 1%Z.
Proof. unfold git_cherry_pick_wt. intros W P. rewrite W, P. reflexivity. Qed.

Lemma commit_fwd_empty st d msg a w :
  st_worktrees st !! d = Some w -> wt_conflict w = false ->
  tree_at st (wt_head w) = Some (wt_files w) -> git_commit_wt st d msg a = GErr st 1%Z.
Proof. unfold git_commit_wt. intros W C T. rewrite W, C, bool_decide_true by exact T. reflexivity. Qed.

Lemma worktree_remove_fwd_dirty st d w :
  st_worktrees st !! d = Some w -> is_clean st w = false -> git_worktree_remove st d = GErr st 128%Z.
Proof. unfold git_worktree_remove. intros W C. destruct (st_readable st); [rewrite W, C|]; reflexivity. Qed.

Lemma run_done f st th o : th_phase th = PDone o -> run_thread f st th = (st, th).
Proof. intros Hp. destruct f; cbn; [reflexivity|]. rewrite Hp. reflexivity. Qed.


Lemma run_prefix f st n a c rs m b tb files ht :
  wf st -> st_readable st = true -> resolve st rs = Some b -> tree_at st b = Some tb ->
  stage_tree tb n c = Some files -> files <> tb -> tree_at st (st_head st) = Some ht ->
  run_thread (S (S (S (S (S (S f)))))) st (call n a c rs m) =
  run_thread f
    (st_session st (mkCommit (Some b) files a (commit_message n m)) (mkWorktree (st_head st) ht false))
    (mkThread n a c rs m PCherryPickWt (st_next_dir st) (st_next st) (st_head st) 0 None).
Proof.
  intros (Wo & Wh & Ww) R Hb Htb Hf Hne Hh.
  assert (Hbn : b < st_next st) by exact (obj_below st b tb Wo Htb).
  assert (Hhn : st_head st < st_next st) by exact (obj_below st _ ht Wo Hh).
  fstep ltac:(reflexivity).
  fstep ltac:(rewrite (worktree_add_fwd _ _ _ b tb); [reflexivity|exact R|apply Ww; lia|exact Hb|exact Htb]).
  erewrite run_step; [|exact I|].
  2:{ unfold step. gsimpl. destruct c as [cc|].
      - destruct (stage_tree_some _ _ _ _ Hf) as (bs & Hbs & Efs).
        rewrite (stage_fwd _ _ _ _ (mkWorktree b tb false) bs); [|apply lookup_insert_eq|exact Hbs].
        cbn [wt_head wt_files wt_conflict]. rewrite <- Efs. reflexivity.
      - destruct (stage_tree_none _ _ _ Hf) as (x & Hx & Efs).
        rewrite (git_rm_fwd _ _ _ (mkWorktree b tb false) x); [|apply lookup_insert_eq|exact Hx].
        cbn [wt_head wt_files wt_conflict]. rewrite <- Efs. reflexivity. }
  gsimpl.
  fstep ltac:(rewrite (commit_fwd _ _ _ _ (mkWorktree b files false)); [reflexivity|apply lookup_insert_eq|reflexivity|];
      intros E; change (tree_at st b = Some files) in E; congruence).
  fstep ltac:(rewrite index_head_fwd by exact R; reflexivity).
  fstep ltac:(erewrite (reset_fwd _ _ _ _ ht); [reflexivity|apply lookup_insert_eq|]; side; exact Hh).
  unfold st_session. rewrite !insert_insert_eq. reflexivity.
Qed.



Lemma session_tree_old st cN w k : k < st_next st ->
  tree_at (st_session st cN w) k = tree_at st k.
Proof. intros Hk. unfold tree_at, st_session. cbn [st_objects]. rewrite lookup_insert_ne by lia. reflexivity. Qed.

Lemma run_suffix_conflict f st n a c rs m b tb files ht :
  st_readable st = true -> b < st_next st -> st_head st < st_next st ->
  tree_at st b = Some tb -> tree_at st (st_head st) = Some ht ->
  cherry_pick_tree tb ht files = None ->
  let e := CalledProcessError (LWorktree (st_next_dir st)) GitCherryPick 1 in
  let S1 := st_session st (mkCommit (Some b) files a (commit_message n m)) (mkWorktree (st_head st) ht false) in
  run_thread (S (S f)) S1 (pick_thread n a c rs m (st_next_dir st) (st_next st) (st_head st)) =
  (set_worktree S1 (st_next_dir st) (mkWorktree (st_head st) ht true),
   mkThread n a c rs m (PDone (Raise (CalledProcessError LRepo GitWorktreeRemove 128) (Some e)))
     (st_next_dir st) (st_next st) (st_head st) 0 (Some e)).
Proof.
  intros R Hb Hh Htb Hht Hc e S1. subst e S1. unfold pick_thread.
  fstep ltac:(rewrite (cherry_pick_wt_fwd_conflict _ _ _ (mkWorktree (st_head st) ht false));
    [reflexivity|unfold st_session; cbn [st_worktrees]; apply lookup_insert_eq|];
    rewrite (pick_onto_eq _ _ _ (mkCommit (Some b) files a (commit_message n m)) ht);
    [|unfold st_session; cbn [st_objects]; apply lookup_insert_eq|
      cbn [wt_head]; rewrite session_tree_old by exact Hh; exact Hht];
    unfold parent_tree; cbn [c_parent c_tree]; rewrite session_tree_old by exact Hb;
    rewrite Htb; cbn [default id]; rewrite Hc; reflexivity).
  fstep ltac:(rewrite (worktree_remove_fwd_dirty _ _ (mkWorktree (st_head st) ht true));
    [reflexivity|unfold st_session; cbn [st_worktrees]; apply lookup_insert_eq|reflexivity]).
  eapply run_done. reflexivity.
Qed.

Lemma run_suffix_ok f st n a c rs m b tb files ht T :
  st_readable st = true -> st_cp_pending st = false -> st_index_lock st = false ->
  b < st_next st -> st_head st < st_next st ->
  tree_at st b = Some tb -> tree_at st (st_head st) = Some ht ->
  cherry_pick_tree tb ht files = Some T -> T <> ht ->
  let N := st_next st in let d := st_next_dir st in
  let nc := mkCommit (Some (st_head st)) T a (commit_message n m) in
  run_thread (S (S (S (S (S f)))))
    (st_session st (mkCommit (Some b) files a (commit_message n m)) (mkWorktree (st_head st) ht false))
    (pick_thread n a c rs m d N (st_head st)) =
  (mkState (<[S (S N) := nc]> (<[S N := nc]> (<[N := mkCommit (Some b) files a (commit_message n m)]> (st_objects st))))
     (S (S (S N))) (S (S N)) false false true (delete d (st_worktrees st))
     (st_dirs st ∖ {[d]}) (S d),
   mkThread n a c rs m (PDone (Ok PNone)) d (S N) (st_head st) (S (S N)) None).
Proof.
  intros R Hp Hl Hb Hh Htb Hht HT HTne N d nc. subst N d nc. unfold pick_thread.
  fstep ltac:(rewrite (cherry_pick_wt_fwd _ _ _ (mkWorktree (st_head st) ht false) (mkCommit (Some (st_head st)) T a (commit_message n m)));
    [reflexivity|unfold st_session; cbn [st_worktrees]; apply lookup_insert_eq|];
    rewrite (pick_onto_eq _ _ _ (mkCommit (Some b) files a (commit_message n m)) ht);
    [|unfold st_session; cbn [st_objects]; apply lookup_insert_eq|
      cbn [wt_head]; rewrite session_tree_old by exact Hh; exact Hht];
    unfold parent_tree; cbn [c_parent c_tree c_author c_message]; rewrite session_tree_old by exact Hb;
    rewrite Htb; cbn [default id]; rewrite HT, bool_decide_false by exact HTne; reflexivity).
  fstep ltac:(rewrite cherry_pick_begin_fwd by (cbn; assumption); reflexivity).
  fstep ltac:(rewrite (cherry_pick_finish_fwd _ _ (mkCommit (Some (st_head st)) T a (commit_message n m))); [reflexivity|];
    rewrite (pick_onto_eq _ _ _ (mkCommit (Some (st_head st)) T a (commit_message n m)) ht);
    [|unfold st_session; side; reflexivity|unfold st_session; side; exact Hht];
    unfold parent_tree; cbn [c_parent c_tree c_author c_message]; unfold st_session; side;
    change (c_tree <$> st_objects st !! st_head st) with (tree_at st (st_head st)); rewrite Hht; cbn [default id];
    rewrite cherry_pick_same_base, bool_decide_false by exact HTne; reflexivity).
  fstep ltac:(rewrite log_head_repo_fwd; [reflexivity|exact R]).
  fstep ltac:(rewrite (worktree_remove_fwd _ _ (mkWorktree (S (st_next st)) T false));
    [reflexivity|exact R|unfold st_session; cbn [st_worktrees]; lk; reflexivity|
     unfold is_clean; cbn [negb andb wt_conflict wt_head wt_files]; apply bool_decide_true; unfold st_session; side; reflexivity]).
  rewrite run_done with (o := Ok PNone) by reflexivity.
  unfold st_session. cbn [st_objects st_worktrees st_dirs st_next st_next_dir].
  rewrite insert_insert_eq, delete_insert_eq. cbn [st_cp_pending st_readable]. rewrite Hp, R.
  do 2 f_equal. apply leibniz_equiv. set_solver.
Qed.

Lemma wf_lt st b t : wf st -> tree_at st b = Some t -> b < st_next st.
Proof. intros (Wo & _ & _). apply obj_below. exact Wo. Qed.

Lemma update_file_ok_run st n a c rs m b tb files ht T :
  wf st -> st_readable st = true -> st_cp_pending st = false -> st_index_lock st = false ->
  resolve st rs = Some b -> tree_at st b = Some tb ->
  stage_tree tb n c = Some files -> files <> tb ->
  tree_at st (st_head st) = Some ht ->
  cherry_pick_tree tb ht files = Some T -> T <> ht ->
  let N := st_next st in let d := st_next_dir st in
  let nc := mkCommit (Some (st_head st)) T a (commit_message n m) in
  update_file_run st n a c rs m =
  (mkState (<[S (S N) := nc]> (<[S N := nc]> (<[N := mkCommit (Some b) files a (commit_message n m)]> (st_objects st))))
     (S (S (S N))) (S (S N)) false false true (delete d (st_worktrees st))
     (st_dirs st ∖ {[d]}) (S d),
   mkThread n a c rs m (PDone (Ok PNone)) d (S N) (st_head st) (S (S N)) None).
Proof.
  intros Hw R Hp Hl Hb Htb Hf Hne Hh HT HTne N d nc.
  rewrite update_file_run_unfold.
  rewrite (run_prefix 5 st n a c rs m b tb files ht) by assumption.
  exact (run_suffix_ok 0 st n a c rs m b tb files ht T R Hp Hl (wf_lt _ _ _ Hw Htb) (wf_lt _ _ _ Hw Hh) Htb Hh HT HTne).
Qed.

Lemma update_file_conflict_run st n a c rs m b tb files ht :
  wf st -> st_readable st = true ->
  resolve st rs = Some b -> tree_at st b = Some tb ->
  stage_tree tb n c = Some files -> files <> tb ->
  tree_at st (st_head st) = Some ht ->
  cherry_pick_tree tb ht files = None ->
  let e := CalledProcessError (LWorktree (st_next_dir st)) GitCherryPick 1 in
  update_file_run st n a c rs m =
  (set_worktree (st_session st (mkCommit (Some b) files a (commit_message n m)) (mkWorktree (st_head st) ht false))
     (st_next_dir st) (mkWorktree (st_head st) ht true),
   mkThread n a c rs m (PDone (Raise (CalledProcessError LRepo GitWorktreeRemove 128) (Some e)))
     (st_next_dir st) (st_next st) (st_head st) 0 (Some e)).
Proof.
  intros Hw R Hb Htb Hf Hne Hh Hc e.
  rewrite update_file_run_unfold.
  rewrite (run_prefix 5 st n a c rs m b tb files ht) by assumption.
  exact (run_suffix_conflict 3 st n a c rs m b tb files ht R (wf_lt _ _ _ Hw Htb) (wf_lt _ _ _ Hw Hh) Htb Hh Hc).
Qed.



Lemma run_open f st n a c rs m b tb :
  wf st -> st_readable st = true -> resolve st rs = Some b -> tree_at st b = Some tb ->
  run_thread (S (S f)) st (call n a c rs m) =
  run_thread f (st_open st (mkWorktree b tb false)) (stage_thread n a c rs m (st_next_dir st)).
Proof.
  intros (Wo & Wh & Ww) R Hb Htb.
  fstep ltac:(reflexivity).
  fstep ltac:(rewrite (worktree_add_fwd _ _ _ b tb); [reflexivity|exact R|apply Ww; lia|exact Hb|exact Htb]).
  reflexivity.
Qed.

Lemma worktree_add_fail st d rs :
  (st_readable st = false \/ resolve st rs = None) -> git_worktree_add st d rs = GErr st 128%Z.
Proof.
  unfold git_worktree_add. intros [H|H]; rewrite ?H; [reflexivity|].
  destruct (st_readable st), (st_worktrees st !! d); reflexivity.
Qed.

Lemma update_file_add_fail_run st n a c rs m :
  (st_readable st = false \/ resolve st rs = None) ->
  update_file_run st n a c rs m =
  (fst (mkdtemp st),
   mkThread n a c rs m (PDone (Raise (CalledProcessError LRepo GitWorktreeAdd 128) None))
     (st_next_dir st) 0 0 0 None).
Proof.
  intros H. rewrite update_file_run_unfold.
  fstep ltac:(reflexivity).
  fstep ltac:(rewrite worktree_add_fail; [reflexivity|];
    rewrite (resolve_same _ st) by reflexivity; exact H).
  eapply run_done. reflexivity.
Qed.


Lemma run_exit_clean f st th w :
  th_phase th = PExit -> st_readable st = true ->
  st_worktrees st !! th_dir th = Some w -> is_clean st w = true ->
  run_thread (S f) st th =
  (rm_dir (rm_dir (del_worktree st (th_dir th)) (th_dir th)) (th_dir th),
   goto th (PDone (match th_pending th with None => Ok PNone | Some e => Raise e None end))).
Proof.
  intros Hp R W C. erewrite run_step; [|rewrite Hp; exact I|].
  2:{ unfold step. rewrite Hp. rewrite (worktree_remove_fwd _ _ w) by assumption. reflexivity. }
  eapply run_done. reflexivity.
Qed.

Lemma run_exit_dirty f st th w :
  th_phase th = PExit ->
  st_worktrees st !! th_dir th = Some w -> is_clean st w = false ->
  run_thread (S f) st th =
  (st, goto th (PDone (Raise (CalledProcessError LRepo GitWorktreeRemove 128) (th_pending th)))).
Proof.
  intros Hp W C. erewrite run_step; [|rewrite Hp; exact I|].
  2:{ unfold step. rewrite Hp. rewrite (worktree_remove_fwd_dirty _ _ w) by assumption. reflexivity. }
  eapply run_done. reflexivity.
Qed.

Lemma closed_open st w :
  rm_dir (rm_dir (del_worktree (st_open st w) (st_next_dir st)) (st_next_dir st)) (st_next_dir st) = st_closed st.
Proof.
  unfold rm_dir, del_worktree, st_open, st_closed. cbn. rewrite delete_insert_eq. f_equal.
  apply leibniz_equiv. set_solver.
Qed.

Lemma update_file_rm_missing_run st n a rs m b tb :
  wf st -> st_readable st = true -> resolve st rs = Some b -> tree_at st b = Some tb -> tb !! n = None ->
  let e := CalledProcessError (LWorktree (st_next_dir st)) GitRm 128 in
  update_file_run st n a None rs m =
  (st_closed st, mkThread n a None rs m (PDone (Raise e None)) (st_next_dir st) 0 0 0 (Some e)).
Proof.
  intros Hw R Hb Htb Hn e. rewrite update_file_run_unfold.
  rewrite (run_open 9 st n a None rs m b tb) by assumption. unfold stage_thread.
  fstep ltac:(rewrite (git_rm_fwd_err _ _ _ (mkWorktree b tb false)); [reflexivity|apply lookup_insert_eq|exact Hn]).
  rewrite (run_exit_clean _ _ _ (mkWorktree b tb false)); [|reflexivity|exact R|apply lookup_insert_eq|].
  - cbn [th_dir]. fold (st_open st (mkWorktree b tb false)). rewrite closed_open. reflexivity.
  - unfold is_clean. cbn [negb andb wt_conflict wt_head wt_files]. apply bool_decide_true. exact Htb.
Qed.

Lemma stage_enc_fail st d p s w :
  st_worktrees st !! d = Some w -> encode s = None ->
  git_stage_changes st d p (CStr s) =
  (set_worktree st d (mkWorktree (wt_head w) (<[p := []]> (wt_files w)) (wt_conflict w)), Some UnicodeEncodeError).
Proof. unfold git_stage_changes. intros W E. rewrite W, E. reflexivity. Qed.

Ltac close_tac := unfold st_closed, st_open; cbn [st_objects st_next st_head st_cp_pending st_index_lock st_readable st_worktrees st_dirs st_next_dir];
  rewrite ?delete_insert_eq; do 2 f_equal; apply leibniz_equiv; set_solver.

Lemma update_file_unchanged_run st n a c rs m b tb bs :
  wf st -> st_readable st = true -> resolve st rs = Some b -> tree_at st b = Some tb ->
  contents_bytes c = Some bs -> tb !! n = Some bs ->
  let e := CalledProcessError (LWorktree (st_next_dir st)) GitCommit 1 in
  update_file_run st n a (Some c) rs m =
  (st_closed st, mkThread n a (Some c) rs m (PDone (Raise e None)) (st_next_dir st) 0 0 0 (Some e)).
Proof.
  intros Hw R Hb Htb Hc Hn e. rewrite update_file_run_unfold.
  rewrite (run_open 9 st n a (Some c) rs m b tb) by assumption. unfold stage_thread, st_open.
  fstep ltac:(rewrite (stage_fwd _ _ _ _ (mkWorktree b tb false) bs); [reflexivity|apply lookup_insert_eq|exact Hc]).
  cbn [wt_head wt_files wt_conflict]. rewrite (insert_id tb n bs Hn).
  fstep ltac:(rewrite (commit_fwd_empty _ _ _ _ (mkWorktree b tb false)); [reflexivity|cbn [st_worktrees]; apply lookup_insert_eq|reflexivity|exact Htb]).
  rewrite (run_exit_clean _ _ _ (mkWorktree b tb false)); [|reflexivity|exact R|cbn; lk; reflexivity|].
  - gsimpl. close_tac.
  - unfold is_clean. cbn [negb andb wt_conflict wt_head wt_files]. apply bool_decide_true. exact Htb.
Qed.

Lemma update_file_encode_fail_run st n a s rs m b tb :
  wf st -> st_readable st = true -> resolve st rs = Some b -> tree_at st b = Some tb ->
  encode s = None -> tb !! n <> Some [] ->
  update_file_run st n a (Some (CStr s)) rs m =
  (st_open st (mkWorktree b (<[n := []]> tb) false),
   mkThread n a (Some (CStr s)) rs m
     (PDone (Raise (CalledProcessError LRepo GitWorktreeRemove 128) (Some UnicodeEncodeError)))
     (st_next_dir st) 0 0 0 (Some UnicodeEncodeError)).
Proof.
  intros Hw R Hb Htb Hs Hn. rewrite update_file_run_unfold.
  rewrite (run_open 9 st n a (Some (CStr s)) rs m b tb) by assumption. unfold stage_thread, st_open.
  fstep ltac:(rewrite (stage_enc_fail _ _ _ _ (mkWorktree b tb false)); [reflexivity|apply lookup_insert_eq|exact Hs]).
  rewrite (run_exit_dirty _ _ _ (mkWorktree b (<[n := []]> tb) false)); [|reflexivity|cbn; lk; reflexivity|].
  - gsimpl. rewrite insert_insert_eq. reflexivity.
  - unfold is_clean. cbn [negb andb wt_conflict wt_head wt_files]. apply bool_decide_false.
    cbn [st_objects]. intros E. change (tree_at st b = Some (<[n:=[]]> tb)) in E.
    rewrite Htb in E. injection E as E. apply Hn. rewrite E. apply lookup_insert_eq.
Qed.

Lemma update_file_empty_pick_run st n a c rs m b tb files ht :
  wf st -> st_readable st = true ->
  resolve st rs = Some b -> tree_at st b = Some tb ->
  stage_tree tb n c = Some files -> files <> tb ->
  tree_at st (st_head st) = Some ht ->
  cherry_pick_tree tb ht files = Some ht ->
  let e := CalledProcessError (LWorktree (st_next_dir st)) GitCherryPick 1 in
  update_file_run st n a c rs m =
  (st_closed (fst (add_commit st (mkCommit (Some b) files a (commit_message n m)))),
   mkThread n a c rs m (PDone (Raise e None)) (st_next_dir st) (st_next st) (st_head st) 0 (Some e)).
Proof.
  intros Hw R Hb Htb Hf Hne Hh Hc e.
  pose proof (wf_lt _ _ _ Hw Htb) as Hbn. pose proof (wf_lt _ _ _ Hw Hh) as Hhn.
  rewrite update_file_run_unfold.
  rewrite (run_prefix 5 st n a c rs m b tb files ht) by assumption.
  fstep ltac:(rewrite (cherry_pick_wt_fwd_empty _ _ _ (mkWorktree (st_head st) ht false));
    [reflexivity|unfold st_session; cbn [st_worktrees]; apply lookup_insert_eq|];
    rewrite (pick_onto_eq _ _ _ (mkCommit (Some b) files a (commit_message n m)) ht);
    [|unfold st_session; cbn [st_objects]; apply lookup_insert_eq|
      cbn [wt_head]; rewrite session_tree_old by exact Hhn; exact Hh];
    unfold parent_tree; cbn [c_parent c_tree]; rewrite session_tree_old by exact Hbn;
    rewrite Htb; cbn [default id]; rewrite Hc, bool_decide_true by reflexivity; reflexivity).
  rewrite (run_exit_clean _ _ _ (mkWorktree (st_head st) ht false)); [|reflexivity|exact R|unfold st_session; cbn; apply lookup_insert_eq|].
  - unfold st_session. gsimpl. close_tac.
  - unfold is_clean. cbn [negb andb wt_conflict wt_head wt_files]. apply bool_decide_true.
    rewrite session_tree_old by exact Hhn. exact Hh.
Qed.

Lemma cherry_pick_begin_refused st :
  st_cp_pending st = true \/ st_index_lock st = true -> git_cherry_pick_begin st = GErr st 128%Z.
Proof.
  unfold git_cherry_pick_begin. intros [H|H]; rewrite H; [|rewrite andb_false_r];
  rewrite ?andb_false_r; reflexivity.
Qed.

Lemma update_file_publish_refused_run st n a c rs m b tb files ht T :
  wf st -> st_readable st = true -> (st_cp_pending st = true \/ st_index_lock st = true) ->
  resolve st rs = Some b -> tree_at st b = Some tb ->
  stage_tree tb n c = Some files -> files <> tb ->
  tree_at st (st_head st) = Some ht ->
  cherry_pick_tree tb ht files = Some T -> T <> ht ->
  let e := CalledProcessError LRepo GitCherryPick 128 in
  let nc := mkCommit (Some (st_head st)) T a (commit_message n m) in
  update_file_run st n a c rs m =
  (st_closed (fst (add_commit (fst (add_commit st (mkCommit (Some b) files a (commit_message n m)))) nc)),
   mkThread n a c rs m (PDone (Raise e None)) (st_next_dir st) (S (st_next st)) (st_head st) 0 (Some e)).
Proof.
  intros Hw R Hpl Hb Htb Hf Hne Hh HT HTne e nc.
  pose proof (wf_lt _ _ _ Hw Htb) as Hbn. pose proof (wf_lt _ _ _ Hw Hh) as Hhn.
  rewrite update_file_run_unfold.
  rewrite (run_prefix 5 st n a c rs m b tb files ht) by assumption.
  fstep ltac:(rewrite (cherry_pick_wt_fwd _ _ _ (mkWorktree (st_head st) ht false) nc);
    [reflexivity|unfold st_session; cbn [st_worktrees]; apply lookup_insert_eq|];
    rewrite (pick_onto_eq _ _ _ (mkCommit (Some b) files a (commit_message n m)) ht);
    [|unfold st_session; cbn [st_objects]; apply lookup_insert_eq|
      cbn [wt_head]; rewrite session_tree_old by exact Hhn; exact Hh];
    unfold parent_tree; cbn [c_parent c_tree c_author c_message]; rewrite session_tree_old by exact Hbn;
    rewrite Htb; cbn [default id]; rewrite HT, bool_decide_false by exact HTne; reflexivity).
  fstep ltac:(rewrite cherry_pick_begin_refused; [reflexivity|]; unfold st_session; exact Hpl).
  rewrite (run_exit_clean _ _ _ (mkWorktree (S (st_next st)) T false)); [|reflexivity|exact R|unfold st_session; cbn; apply lookup_insert_eq|].
  - unfold st_session. gsimpl. close_tac.
  - unfold is_clean. cbn [negb andb wt_conflict wt_head wt_files]. apply bool_decide_true.
    unfold st_session, tree_at. cbn. rewrite lookup_insert_eq. reflexivity.
Qed.

Lemma update_file_encode_fail_clean_run st n a s rs m b tb :
  wf st -> st_readable st = true -> resolve st rs = Some b -> tree_at st b = Some tb ->
  encode s = None -> tb !! n = Some [] ->
  update_file_run st n a (Some (CStr s)) rs m =
  (st_closed st,
   mkThread n a (Some (CStr s)) rs m (PDone (Raise UnicodeEncodeError None))
     (st_next_dir st) 0 0 0 (Some UnicodeEncodeError)).
Proof.
  intros Hw R Hb Htb Hs Hn. rewrite update_file_run_unfold.
  rewrite (run_open 9 st n a (Some (CStr s)) rs m b tb) by assumption. unfold stage_thread, st_open.
  fstep ltac:(rewrite (stage_enc_fail _ _ _ _ (mkWorktree b tb false)); [reflexivity|apply lookup_insert_eq|exact Hs]).
  cbn [wt_head wt_files wt_conflict]. rewrite (insert_id tb n [] Hn).
  rewrite (run_exit_clean _ _ _ (mkWorktree b tb false)); [|reflexivity|exact R|cbn; lk; reflexivity|].
  - gsimpl. close_tac.
  - unfold is_clean. cbn [negb andb wt_conflict wt_head wt_files]. apply bool_decide_true. exact Htb.
Qed.

Lemma resolve_tree st rs b : wf st -> resolve st rs = Some b -> exists t, tree_at st b = Some t.
Proof.
  intros (_ & Wh & _). unfold tree_at. destruct rs; cbn.
  - intros [= <-]. destruct Wh as [x ->]. eexists; reflexivity.
  - destruct (st_objects st !! r) eqn:E; intros [= <-]. rewrite E. eexists; reflexivity.
Qed.

Lemma head_tree st : wf st -> exists t, tree_at st (st_head st) = Some t.
Proof. intros Hw. apply (resolve_tree st HEAD). exact Hw. reflexivity. Qed.


Lemma update_file_paths st n a c rs m :
  wf st -> uf_path st n a c rs m (update_file_run st n a c rs m).
Proof.
  intros Hw.
  destruct (st_readable st) eqn:R.
  2:{ rewrite update_file_add_fail_run by auto. apply UAddFail. auto. }
  destruct (resolve st rs) as [b|] eqn:Hb.
  2:{ rewrite update_file_add_fail_run by auto. apply UAddFail. auto. }
  destruct (resolve_tree _ _ _ Hw Hb) as [tb Htb].
  destruct (head_tree _ Hw) as [ht Hh].
  assert (Hpick : forall files, stage_tree tb n c = Some files -> files <> tb ->
            uf_path st n a c rs m (update_file_run st n a c rs m)).
  { intros files Hf Hne.
    destruct (cherry_pick_tree tb ht files) as [T|] eqn:HT.
    2:{ rewrite (update_file_conflict_run st n a c rs m b tb files ht) by assumption.
        eapply UConflict; eassumption. }
    destruct (decide (T = ht)) as [->|HTne].
    { rewrite (update_file_empty_pick_run st n a c rs m b tb files ht) by assumption.
      eapply UEmpty; eassumption. }
    destruct (st_cp_pending st || st_index_lock st) eqn:Hpl.
    - apply orb_true_iff in Hpl.
      rewrite (update_file_publish_refused_run st n a c rs m b tb files ht T) by assumption.
      eapply URefused; eassumption.
    - apply orb_false_iff in Hpl. destruct Hpl as [Hp Hl].
      rewrite (update_file_ok_run st n a c rs m b tb files ht T) by assumption.
      eapply UOk; eassumption. }
  destruct c as [cc|].
  - destruct (contents_bytes cc) as [bs|] eqn:Hc.
    + destruct (decide (tb !! n = Some bs)) as [Hn|Hn].
      * rewrite (update_file_unchanged_run st n a cc rs m b tb bs) by assumption.
        eapply UUnchanged; eauto.
      * apply (Hpick (<[n := bs]> tb)).
        -- cbn. rewrite Hc. reflexivity.
        -- intros E. apply Hn. rewrite <- E. apply lookup_insert_eq.
    + destruct cc as [s|bs]; [|discriminate Hc]. cbn in Hc.
      destruct (decide (tb !! n = Some [])) as [Hn|Hn].
      * rewrite (update_file_encode_fail_clean_run st n a s rs m b tb) by assumption.
        eapply UEncClean; eauto.
      * rewrite (update_file_encode_fail_run st n a s rs m b tb) by assumption.
        eapply UEncDirty; eauto.
  - destruct (tb !! n) as [x|] eqn:Hn.
    + apply (Hpick (delete n tb)).
      * cbn. rewrite Hn. reflexivity.
      * intros E. assert (E' : delete n tb !! n = tb !! n) by (rewrite E; reflexivity).
        rewrite lookup_delete_eq, Hn in E'. discriminate.
    + rewrite (update_file_rm_missing_run st n a rs m b tb) by assumption.
      eapply URmMissing; eauto.
Qed.


Lemma wfb_wf st : wfb st = true -> wf st.
Proof.
  unfold wfb. intros H. apply andb_prop in H as [H H3]. apply andb_prop in H as [H1 H2].
  apply bool_decide_eq_true in H1, H2, H3. split; [|split; [exact H2|]].
  - intros k Hk. destruct (st_objects st !! k) eqn:E; [|reflexivity]. apply H1 in E. lia.
  - intros k Hk. destruct (st_worktrees st !! k) eqn:E; [|reflexivity]. apply H3 in E. lia.
Qed.

(** C1 (corrected): when [update_file] succeeds on a well-formed repository it returns [None], not a revision; the shared head has moved to a new commit whose parent is the previous head. *)
Lemma update_file_ok_result st n a c rs m st' v :
  wf st -> update_file st n a c rs m = (st', Ok v) ->
  v = PNone /\ st_head st' <> st_head st /\
  c_parent <$> st_objects st' !! st_head st' = Some (Some (st_head st)).
Proof.
  intros Hw. unfold update_file. pose proof (update_file_paths st n a c rs m Hw) as P.
  destruct (update_file_run st n a c rs m) as [s th]. intros [= <- Ho].
  destruct (head_tree _ Hw) as [ht0 Hh0]. pose proof (wf_lt _ _ _ Hw Hh0).
  inversion P; subst; cbn in Ho; try discriminate Ho.
  injection Ho as <-. cbn. split; [reflexivity|]. split.
  - lia.
  - rewrite lookup_insert_eq. reflexivity.
Qed.

Lemma line_conflict_spec b o t :
  line_conflict b o t = true ->
  exists x y z, b = Some x /\ o = Some y /\ t = Some z /\ x <> y /\ x <> z /\ y <> z.
Proof.
  unfold line_conflict. destruct b as [x|], o as [y|], t as [z|]; try discriminate.
  rewrite !andb_true_iff, !negb_true_iff, !bool_decide_eq_false.
  intros (((((_ & _) & _) & Hxy) & Hxz) & Hyz). exists x, y, z. split_and!; auto.
Qed.

Lemma line_conflict_pick (tb ht files : tree) n :
  line_conflict (tb !! n) (ht !! n) (files !! n) = true -> cherry_pick_tree tb ht files = None.
Proof.
  intros H. destruct (line_conflict_spec _ _ _ H) as (x & y & z & Hx & Hy & Hz & Hxy & Hxz & Hyz).
  apply (cherry_pick_tree_None _ _ _ n). rewrite Hx, Hy, Hz. unfold three_way.
  repeat case_decide; congruence.
Qed.

Lemma line_conflict_files_ne (tb ht files : tree) n :
  line_conflict (tb !! n) (ht !! n) (files !! n) = true -> files <> tb.
Proof.
  intros H ->. destruct (line_conflict_spec _ _ _ H) as (x & y & z & Hx & Hy & Hz & Hxy & Hxz & Hyz).
  congruence.
Qed.



Lemma get_contents_encoded st n rs r t bs s :
  st_readable st = true -> resolve st rs = Some r -> tree_at st r = Some t -> t !! n = Some bs ->
  encode s = Some bs -> get_contents_at_revision st n rs = Ok (universal_newlines s).
Proof.
  intros R Hr Ht Hn Hs. unfold get_contents_at_revision.
  replace (git_show st rs n) with (Some bs).
  - rewrite (decode_encode _ _ _ Hs). reflexivity.
  - unfold git_show. rewrite R, Hr. cbn. rewrite Ht. cbn. rewrite Hn. reflexivity.
Qed.

(** C3 (corrected): when a write of the text [s] to a document with a plain name, based on the current head, succeeds, reading the document at HEAD and at the revision the write published returns [universal_newlines s], not [s] itself: \r\n and \r read back as \n. *)
Lemma update_file_read_back st n a s m st' th v :
  wf st -> plain_name n = true ->
  update_file_run st n a (Some (CStr s)) HEAD m = (st', th) -> outcome th = Ok v ->
  get_contents_at_revision st' n HEAD = Ok (universal_newlines s) /\
  get_contents_at_revision st' n (Rev (th_published th)) = Ok (universal_newlines s).
Proof.
  intros Hw _ E Ho. pose proof (update_file_paths st n a (Some (CStr s)) HEAD m Hw) as P. rewrite E in P.
  inversion P; subst; cbn in Ho; try discriminate Ho.
  match goal with
  | Hf : stage_tree _ _ _ = Some _ |- _ => destruct (stage_tree_some _ _ _ _ Hf) as (bs & Hbs & ->)
  end.
  match goal with
  | HT : cherry_pick_tree _ _ _ = Some ?T |- _ => pose proof (cherry_pick_theirs _ _ _ _ n HT) as XX
  end.
  assert (Hn : T !! n = Some bs).
  { rewrite XX; [apply lookup_insert_eq|]. rewrite lookup_insert_eq. intros Eq.
    match goal with Hne : <[n:=bs]> ?tb <> ?tb |- _ => apply Hne; apply insert_id; congruence end. }
  cbn in Hbs.
  assert (Ht : tree_at (mkState (<[S (S (st_next st)):=mkCommit (Some (st_head st)) T a (commit_message n m)]>
      (<[S (st_next st):=mkCommit (Some (st_head st)) T a (commit_message n m)]>
         (<[st_next st:=mkCommit (Some b) (<[n:=bs]> tb) a (commit_message n m)]> (st_objects st))))
      (S (S (S (st_next st)))) (S (S (st_next st))) false false true (delete (st_next_dir st) (st_worktrees st))
      (st_dirs st ∖ {[st_next_dir st]}) (S (st_next_dir st))) (S (S (st_next st))) = Some T).
  { unfold tree_at. cbn. rewrite lookup_insert_eq. reflexivity. }
  split; (eapply get_contents_encoded; [reflexivity| |exact Ht|exact Hn|exact Hbs]);
  cbn; rewrite ?lookup_insert_eq; reflexivity.
Qed.

(** C4 (code bug): when the rebase cherry-pick of the session conflicts, because the head rewrote the same single line of the document differently since the base revision, [git worktree remove] (without --force) refuses the conflicted worktree: the session exit raises and the worktree stays registered, holding the conflicted files; the shared head is unchanged. *)
Lemma update_file_conflict_keeps_worktree st n a c rs m b tb files ht st' r :
  wf st -> st_readable st = true -> plain_name n = true ->
  resolve st rs = Some b -> tree_at st b = Some tb -> stage_tree tb n c = Some files ->
  tree_at st (st_head st) = Some ht -> line_conflict (tb !! n) (ht !! n) (files !! n) = true ->
  update_file st n a c rs m = (st', r) ->
  r = Raise (CalledProcessError LRepo GitWorktreeRemove 128)
        (Some (CalledProcessError (LWorktree (st_next_dir st)) GitCherryPick 1)) /\
  st_worktrees st' !! st_next_dir st = Some (mkWorktree (st_head st) ht true) /\
  st_head st' = st_head st.
Proof.
  intros Hw R _ Hb Htb Hf Hh Hlc.
  pose proof (line_conflict_pick _ _ _ _ Hlc) as Hc. pose proof (line_conflict_files_ne _ _ _ _ Hlc) as Hne.
  unfold update_file.
  rewrite (update_file_conflict_run st n a c rs m b tb files ht) by assumption.
  intros [= <- <-]. cbn. rewrite lookup_insert_eq. auto.
Qed.


Lemma get_contents_call_default st n rs :
  has_nul n = false -> get_contents_call true st n rs Utf8 = get_contents_at_revision st n rs.
Proof.
  intros Hn. unfold get_contents_call, get_contents_at_revision. rewrite Hn. cbn [negb decode_replace].
  destruct (git_show st rs n); reflexivity.
Qed.


(** C6 (corrected): deleting a document with a plain name that is absent at the base revision fails with the [CalledProcessError] of [git rm] (exit 128) and no context, not with [NotFoundError]; objects, head and worktree registrations are unchanged. *)
Lemma update_file_delete_missing st n a rs m b tb st' r :
  wf st -> st_readable st = true -> plain_name n = true ->
  resolve st rs = Some b -> tree_at st b = Some tb -> tb !! n = None ->
  update_file st n a None rs m = (st', r) ->
  r = Raise (CalledProcessError (LWorktree (st_next_dir st)) GitRm 128) None /\
  st_objects st' = st_objects st /\ st_head st' = st_head st /\ st_worktrees st' = st_worktrees st.
Proof.
  intros Hw R _ Hb Htb Hn. unfold update_file.
  rewrite (update_file_rm_missing_run st n a rs m b tb) by assumption.
  intros [= <- <-]. cbn. split_and!; try reflexivity.
  apply delete_id. destruct Hw as (_ & _ & Ww). apply Ww. lia.
Qed.

(** C8 (confirmed): whatever the other calls in flight did since a session was opened, when a call of [update_file] reaches its rebase step its next two steps query the shared repository's HEAD at that moment ([index_head] keeps no copy) and reset the session's worktree onto that commit, replacing whatever the worktree held; the call records that head. *)
Lemma reset_onto_current_head st ths i th w t :
  ths !! i = Some th -> th_phase th = PIndexHead -> st_readable st = true ->
  st_worktrees st !! th_dir th = Some w -> tree_at st (st_head st) = Some t ->
  run_sched st ths [i; i] =
  (set_worktree st (th_dir th) (mkWorktree (st_head st) t false),
   <[i := goto (set_th_head th (st_head st)) PCherryPickWt]> ths).
Proof.
  intros Hi Hp R W Ht. pose proof (lookup_lt_Some _ _ _ Hi) as Hlt.
  assert (S1 : step st th = (st, goto (set_th_head th (st_head st)) PReset)).
  { unfold step. rewrite Hp, index_head_fwd by exact R. reflexivity. }
  assert (S2 : step st (goto (set_th_head th (st_head st)) PReset) =
               (set_worktree st (th_dir th) (mkWorktree (st_head st) t false),
                goto (set_th_head th (st_head st)) PCherryPickWt)).
  { unfold step. cbn [th_phase goto set_th_head th_dir th_head].
    rewrite (reset_fwd _ _ _ w t) by assumption. reflexivity. }
  unfold run_sched. cbn [fold_left]. unfold sched_step at 2. rewrite Hi, S1.
  unfold sched_step. rewrite list_lookup_insert_eq by exact Hlt. rewrite S2.
  rewrite list_insert_insert_eq. reflexivity.
Qed.

Lemma get_contents_tree st rs r t k :
  st_readable st = true -> resolve st rs = Some r -> tree_at st r = Some t ->
  get_contents_at_revision st k rs =
  match t !! k with
  | Some bs => Ok (universal_newlines (map (fun u => default replacement_char u) (utf8_units bs)))
  | None => Raise NotFoundError (Some (CalledProcessError LRepo GitShow 128))
  end.
Proof.
  intros R Hr Ht. unfold get_contents_at_revision.
  replace (git_show st rs k) with (t !! k).
  - destruct (t !! k); reflexivity.
  - unfold git_show. rewrite R, Hr. cbn. rewrite Ht. reflexivity.
Qed.

Lemma universal_newlines_other c r : c <> 13%Z -> universal_newlines (c :: r) = c :: universal_newlines r.
Proof.
  intros H. destruct c as [|p|p]; try reflexivity.
  repeat (destruct p as [p|p|]; try reflexivity).
  exfalso. apply H. reflexivity.
Qed.

Lemma universal_newlines_cr_other c r : c <> 10%Z -> universal_newlines (13%Z :: c :: r) = 10%Z :: universal_newlines (c :: r).
Proof.
  intros H. destruct c as [|p|p]; try reflexivity.
  repeat (destruct p as [p|p|]; try reflexivity).
  exfalso. apply H. reflexivity.
Qed.

Lemma universal_newlines_keep_aux k l c :
  length l <= k -> In c l -> c <> 13%Z -> In c (universal_newlines l).
Proof.
  revert l. induction k as [|k IH]; intros l Hl Hin Hc.
  - destruct l; [destruct Hin|cbn in Hl; lia].
  - destruct l as [|x r]; [destruct Hin|]. cbn in Hl.
    destruct (Z.eq_dec x 13%Z) as [->|Hx].
    + destruct Hin as [E|Hin]; [congruence|].
      destruct r as [|x2 r]; [destruct Hin|].
      destruct (Z.eq_dec x2 10%Z) as [->|Hx2].
      * cbn [universal_newlines]. destruct Hin as [<-|Hin]; [left; reflexivity|].
        right. apply IH; [cbn in Hl; lia|exact Hin|exact Hc].
      * rewrite (universal_newlines_cr_other x2 r Hx2). right.
        apply IH; [cbn in *; lia|exact Hin|exact Hc].
    + rewrite (universal_newlines_other x r Hx).
      destruct Hin as [<-|Hin]; [left; reflexivity|].
      right. apply IH; [lia|exact Hin|exact Hc].
Qed.

(** C10 (corrected): with the default encoding, utf-8, the only one gitki passes, reading a document that exists at the revision never raises a decoding error: the read succeeds, every undecodable unit of the stored bytes reads as U+FFFD, and every decoded character other than \r is kept.  (A codec such as idna, which refuses [errors='replace'], makes every read raise [UnicodeError].) *)
Lemma get_contents_no_decode_error st n rs r t bs :
  st_readable st = true -> resolve st rs = Some r -> tree_at st r = Some t -> t !! n = Some bs ->
  exists s, get_contents_at_revision st n rs = Ok s /\
    (In None (utf8_units bs) -> In replacement_char s) /\
    (forall c, In (Some c) (utf8_units bs) -> c <> 13%Z -> In c s).
Proof.
  intros R Hr Ht Hn. rewrite (get_contents_tree st rs r t n R Hr Ht), Hn.
  eexists. split; [reflexivity|]. split.
  - intros Hin. apply (universal_newlines_keep_aux _ _ _ (le_n _)); [|discriminate].
    change replacement_char with ((fun u => default replacement_char u) None). apply in_map. exact Hin.
  - intros c Hin Hc. apply (universal_newlines_keep_aux _ _ _ (le_n _)); [|exact Hc].
    change c with ((fun u => default replacement_char u) (Some c)). apply in_map. exact Hin.
Qed.

Lemma history_errors_aux k log : length log <= k ->
  (snd (history log) = None <-> six_line_groups log = true) /\
  (forall e, snd (history log) = Some e -> e = RuntimeError \/ e = ValueError).
Proof.
  revert log. induction k as [|k IH]; intros log Hl.
  - destruct log; [|cbn in Hl; lia]. cbn. split; [tauto|discriminate].
  - destruct log as [|l1 [|l2 [|l3 [|l4 [|l5 [|stats rest]]]]]];
      try (cbn; split; [split; discriminate|intros e [= <-]; auto]).
    + cbn. split; [tauto|discriminate].
    + assert (Hr : length rest <= k) by (cbn in Hl; lia).
      destruct (IH rest Hr) as [IH1 IH2].
      cbn [history six_line_groups]. unfold stats_ok.
      destruct (split stats) as [|i [|dl fs]]; cbn [andb];
        try (split; [split; discriminate|intros e [= <-]; auto]).
      destruct (int_of_string i) as [x|]; cbn [andb];
        [|split; [split; discriminate|intros e [= <-]; auto]].
      destruct (int_of_string dl) as [y|]; cbn [andb];
        [|split; [split; discriminate|intros e [= <-]; auto]].
      rewrite bool_decide_true by (eexists; reflexivity).
      rewrite bool_decide_true by (eexists; reflexivity). cbn [andb].
      destruct (history rest) as [rs e]. cbn [snd] in *. exact (conj IH1 IH2).
Qed.

(** C7 (corrected): [history] fails exactly when its input is not made of complete six-line groups whose sixth line starts with two integers, and then with [RuntimeError] or [ValueError]; the fifth line of a group is not checked. *)
Lemma history_errors log :
  (snd (history log) = None <-> six_line_groups log = true) /\
  (forall e, snd (history log) = Some e -> e = RuntimeError \/ e = ValueError).
Proof. exact (history_errors_aux (length log) log (le_n _)). Qed.

Ltac wf_tac :=
  let k := fresh "k" in let Hk := fresh "Hk" in
  intros k Hk; cbn in Hk |- *;
  repeat (rewrite lookup_insert_ne by lia) ; rewrite ?lookup_delete_ne by lia;
  first [rewrite lookup_delete_eq; reflexivity | auto with lia].

Lemma update_file_wf st n a c rs m : wf st -> wf (fst (update_file_run st n a c rs m)).
Proof.
  intros Hw. pose proof (update_file_paths st n a c rs m Hw) as P.
  destruct (update_file_run st n a c rs m) as [s th]. cbn [fst].
  destruct (head_tree _ Hw) as [ht0 Hh0]. pose proof (wf_lt _ _ _ Hw Hh0) as Hhn.
  destruct Hw as (Wo & Wh & Ww).
  inversion P; subst; unfold wf, st_closed, st_open, st_session, set_worktree, add_commit, mkdtemp;
    cbn [fst st_objects st_next st_head st_worktrees st_next_dir];
    (split; [|split]);
    try solve [wf_tac; (apply Wo || apply Ww); lia];
    try solve [rewrite ?lookup_insert_ne by lia; exact Wh];
    try solve [rewrite lookup_insert_eq; eexists; reflexivity].
  all: wf_tac.
  all: try (destruct (decide (k = st_next_dir st)) as [->|]; [rewrite lookup_delete_eq; reflexivity|]).
  all: rewrite ?lookup_delete_ne by lia; apply Ww; lia.
Qed.



Lemma update_file_ok_eq st n a c rs m b tb files ht T :
  wf st -> st_readable st = true -> st_cp_pending st = false -> st_index_lock st = false ->
  resolve st rs = Some b -> tree_at st b = Some tb ->
  stage_tree tb n c = Some files -> files <> tb ->
  tree_at st (st_head st) = Some ht ->
  cherry_pick_tree tb ht files = Some T -> T <> ht ->
  update_file st n a c rs m =
  (mkState (<[S (S (st_next st)) := mkCommit (Some (st_head st)) T a (commit_message n m)]>
     (<[S (st_next st) := mkCommit (Some (st_head st)) T a (commit_message n m)]>
     (<[st_next st := mkCommit (Some b) files a (commit_message n m)]> (st_objects st))))
     (S (S (S (st_next st)))) (S (S (st_next st))) false false true (delete (st_next_dir st) (st_worktrees st))
     (st_dirs st ∖ {[st_next_dir st]}) (S (st_next_dir st)), Ok PNone).
Proof.
  intros. unfold update_file.
  rewrite (update_file_ok_run st n a c rs m b tb files ht T) by assumption. reflexivity.
Qed.

Lemma update_file_conflict_eq st n a c rs m b tb files ht :
  wf st -> st_readable st = true ->
  resolve st rs = Some b -> tree_at st b = Some tb ->
  stage_tree tb n c = Some files -> files <> tb ->
  tree_at st (st_head st) = Some ht ->
  cherry_pick_tree tb ht files = None ->
  update_file st n a c rs m =
  (set_worktree (st_session st (mkCommit (Some b) files a (commit_message n m)) (mkWorktree (st_head st) ht false))
     (st_next_dir st) (mkWorktree (st_head st) ht true),
   Raise (CalledProcessError LRepo GitWorktreeRemove 128)
     (Some (CalledProcessError (LWorktree (st_next_dir st)) GitCherryPick 1))).
Proof.
  intros. unfold update_file.
  rewrite (update_file_conflict_run st n a c rs m b tb files ht) by assumption. reflexivity.
Qed.

Lemma three_way_some_if b o t : b = t \/ o = b \/ o = t -> is_Some (three_way b o t).
Proof. unfold three_way. intros H. repeat case_decide; eauto; exfalso; intuition congruence. Qed.

(** C9 (corrected): two writes to documents with plain names, run one after the other with the same stale base, both succeed when they change different documents; when both rewrite the same single line of one document differently, the second fails with git cherry-pick's untyped conflict error (raised or carried as the context of the raised error, not a typed conflict error) and leaves the head unchanged.  The publish step has no mutex: overlapping runs are not serialised. *)
Lemma stale_writes_sequential st t0 n1 s1 bs1 a1 m1 n2 s2 bs2 a2 m2 st1 r1 st2 r2 :
  wf st -> st_readable st = true -> st_cp_pending st = false -> st_index_lock st = false ->
  plain_name n1 = true -> plain_name n2 = true ->
  tree_at st (st_head st) = Some t0 ->
  encode s1 = Some bs1 -> t0 !! n1 <> Some bs1 ->
  encode s2 = Some bs2 -> t0 !! n2 <> Some bs2 ->
  update_file st n1 a1 (Some (CStr s1)) (Rev (st_head st)) m1 = (st1, r1) ->
  update_file st1 n2 a2 (Some (CStr s2)) (Rev (st_head st)) m2 = (st2, r2) ->
  r1 = Ok PNone /\
  (n1 <> n2 -> r2 = Ok PNone) /\
  (n1 = n2 -> line_conflict (t0 !! n1) (Some bs1) (Some bs2) = true ->
   st_head st2 = st_head st1 /\
   exists e ctx, r2 = Raise e ctx /\
     (e = CalledProcessError (LWorktree (st_next_dir st1)) GitCherryPick 1 \/
      ctx = Some (CalledProcessError (LWorktree (st_next_dir st1)) GitCherryPick 1))).
Proof.
  intros Hw R Hp Hl _ _ Ht0 E1 N1 E2 N2 U1 U2.
  pose proof (wf_lt _ _ _ Hw Ht0) as Hhn.
  assert (Hres : resolve st (Rev (st_head st)) = Some (st_head st)).
  { cbn. unfold tree_at in Ht0. destruct (st_objects st !! st_head st); [reflexivity|discriminate]. }
  assert (F1 : stage_tree t0 n1 (Some (CStr s1)) = Some (<[n1:=bs1]> t0)) by (cbn; rewrite E1; reflexivity).
  assert (F1ne : <[n1:=bs1]> t0 <> t0).
  { intros E. apply N1. rewrite <- E. apply lookup_insert_eq. }
  pose proof (update_file_wf st n1 a1 (Some (CStr s1)) (Rev (st_head st)) m1 Hw) as Hw1.
  rewrite (update_file_ok_run st n1 a1 (Some (CStr s1)) (Rev (st_head st)) m1 (st_head st) t0
             (<[n1:=bs1]> t0) t0 (<[n1:=bs1]> t0)) in Hw1 by
    (first [assumption | apply cherry_pick_same_base]).
  rewrite (update_file_ok_eq st n1 a1 (Some (CStr s1)) (Rev (st_head st)) m1 (st_head st) t0
             (<[n1:=bs1]> t0) t0 (<[n1:=bs1]> t0)) in U1 by
    (first [assumption | apply cherry_pick_same_base]).
  cbn [fst] in Hw1. injection U1 as <- <-.
  split; [reflexivity|].
  set (st1 := mkState _ _ _ _ _ _ _ _ _) in *.
  assert (R1 : st_readable st1 = true) by reflexivity.
  assert (Hres1 : resolve st1 (Rev (st_head st)) = Some (st_head st)).
  { cbn. rewrite !lookup_insert_ne by lia. cbn in Hres.
    destruct (st_objects st !! st_head st); [reflexivity|discriminate]. }
  assert (Ht1 : tree_at st1 (st_head st) = Some t0).
  { unfold tree_at. cbn. rewrite !lookup_insert_ne by lia. exact Ht0. }
  assert (Hh1 : tree_at st1 (st_head st1) = Some (<[n1:=bs1]> t0)).
  { unfold tree_at. cbn. rewrite lookup_insert_eq. reflexivity. }
  assert (F2 : stage_tree t0 n2 (Some (CStr s2)) = Some (<[n2:=bs2]> t0)) by (cbn; rewrite E2; reflexivity).
  assert (F2ne : <[n2:=bs2]> t0 <> t0).
  { intros E. apply N2. rewrite <- E. apply lookup_insert_eq. }
  split.
  - intros Hn.
    destruct (cherry_pick_tree_Some t0 (<[n1:=bs1]> t0) (<[n2:=bs2]> t0)) as [T2 HT2].
    { intros i. apply three_way_some_if.
      destruct (decide (i = n2)) as [->|Hi].
      - right; left. rewrite lookup_insert_ne by congruence. reflexivity.
      - left. rewrite lookup_insert_ne by congruence. reflexivity. }
    assert (HT2ne : T2 <> <[n1:=bs1]> t0).
    { intros ->. pose proof (cherry_pick_theirs _ _ _ _ n2 HT2) as X.
      rewrite !lookup_insert_eq in X. rewrite lookup_insert_ne in X by congruence.
      apply N2. apply X. exact N2. }
    rewrite (update_file_ok_eq st1 n2 a2 (Some (CStr s2)) (Rev (st_head st)) m2 (st_head st) t0
               (<[n2:=bs2]> t0) (<[n1:=bs1]> t0) T2) in U2 by (first [assumption | reflexivity]).
    injection U2 as _ <-. reflexivity.
  - intros <- Hlc.
    assert (HC : cherry_pick_tree t0 (<[n1:=bs1]> t0) (<[n1:=bs2]> t0) = None).
    { apply (line_conflict_pick _ _ _ n1). rewrite !lookup_insert_eq. exact Hlc. }
    rewrite (update_file_conflict_eq st1 n1 a2 (Some (CStr s2)) (Rev (st_head st)) m2 (st_head st) t0
               (<[n1:=bs2]> t0) (<[n1:=bs1]> t0)) in U2 by assumption.
    injection U2 as <- <-. split; [reflexivity|].
    do 2 eexists. split; [reflexivity|]. right. reflexivity.
Qed.


Lemma neq_of_bool {A} `{EqDecision A} (x y : A) : bool_decide (x = y) = false -> x <> y.
Proof. intros H. apply bool_decide_eq_false in H. exact H. Qed.


Ltac wit := first [apply wfb_wf; vm_compute; reflexivity | apply neq_of_bool; vm_compute; reflexivity | vm_compute; reflexivity].

Lemma update_file_ok_result_witness :
  PNone = PNone /\ st_head s1 <> st_head s0 /\
  c_parent <$> st_objects s1 !! st_head s1 = Some (Some (st_head s0)).
Proof. apply (update_file_ok_result s0 "a.txt" auth (Some (CStr [98%Z])) HEAD "" s1 PNone); wit. Defined.


Lemma update_file_read_back_witness :
  get_contents_at_revision (fst run1) "a.txt" HEAD = Ok (universal_newlines [98%Z]) /\
  get_contents_at_revision (fst run1) "a.txt" (Rev (th_published (snd run1))) = Ok (universal_newlines [98%Z]).
Proof. apply (update_file_read_back s0 "a.txt" auth [98%Z] "" (fst run1) (snd run1) PNone); wit. Defined.

Lemma update_file_conflict_keeps_worktree_witness :
  snd w2 = Raise (CalledProcessError LRepo GitWorktreeRemove 128)
        (Some (CalledProcessError (LWorktree (st_next_dir s1)) GitCherryPick 1)) /\
  st_worktrees (fst w2) !! st_next_dir s1 = Some (mkWorktree (st_head s1) {["a.txt" := [98%Z]]} true) /\
  st_head (fst w2) = st_head s1.
Proof.
  apply (update_file_conflict_keeps_worktree s1 "a.txt" auth (Some (CStr [99%Z])) (Rev 0) "" 0
           {["a.txt" := [97%Z]]} {["a.txt" := [99%Z]]} {["a.txt" := [98%Z]]}); wit.
Defined.

Lemma update_file_delete_missing_witness :
  snd del2 = Raise (CalledProcessError (LWorktree (st_next_dir (fst del1))) GitRm 128) None /\
  st_objects (fst del2) = st_objects (fst del1) /\ st_head (fst del2) = st_head (fst del1) /\
  st_worktrees (fst del2) = st_worktrees (fst del1).
Proof.
  apply (update_file_delete_missing (fst del1) "a.txt" auth (Rev (st_head (fst del1))) "" 6 ∅); wit.
Defined.

Lemma reset_onto_current_head_witness :
  st_head s0 = 0 /\ st_head (fst moved) = 4 /\
  run_sched (fst moved) (snd moved) [0; 0] =
  (set_worktree (fst moved) (th_dir moved_a)
     (mkWorktree (st_head (fst moved)) {["a.txt" := [97%Z]; "b.txt" := [99%Z]]} false),
   <[0 := goto (set_th_head moved_a (st_head (fst moved))) PCherryPickWt]> (snd moved)).
Proof.
  split; [reflexivity|]. split; [vm_compute; reflexivity|].
  apply (reset_onto_current_head (fst moved) (snd moved) 0 moved_a (mkWorktree 1 {["a.txt" := [98%Z]]} false)); wit.
Defined.

Lemma stale_writes_sequential_witness :
  snd wb = Ok PNone /\
  (st_head (fst w2) = st_head s1 /\
   exists e ctx, snd w2 = Raise e ctx /\
     (e = CalledProcessError (LWorktree (st_next_dir s1)) GitCherryPick 1 \/
      ctx = Some (CalledProcessError (LWorktree (st_next_dir s1)) GitCherryPick 1))).
Proof.
  split.
  - refine (proj1 (proj2 (stale_writes_sequential s0 {["a.txt" := [97%Z]]} "a.txt" [98%Z] [98%Z] auth ""
             "b.txt" [99%Z] [99%Z] auth "" s1 (snd w1) (fst wb) (snd wb) _ _ _ _ _ _ _ _ _ _ _ _ _)) _);
      first [discriminate | wit].
  - refine (proj2 (proj2 (stale_writes_sequential s0 {["a.txt" := [97%Z]]} "a.txt" [98%Z] [98%Z] auth ""
             "a.txt" [99%Z] [99%Z] auth "" s1 (snd w1) (fst w2) (snd w2) _ _ _ _ _ _ _ _ _ _ _ _ _)) eq_refl _);
      wit.
Defined.

Lemma get_contents_no_decode_error_witness :
  get_contents_at_revision s0_bad "a.txt" HEAD = Ok [97; 0xFFFD]%Z /\
  exists s, get_contents_at_revision s0_bad "a.txt" HEAD = Ok s /\
    (In None (utf8_units [97; 0xFF]%Z) -> In replacement_char s) /\
    (forall c, In (Some c) (utf8_units [97; 0xFF]%Z) -> c <> 13%Z -> In c s).
Proof.
  split; [vm_compute; reflexivity|].
  apply (get_contents_no_decode_error s0_bad "a.txt" HEAD 0 {["a.txt" := [97; 0xFF]%Z]} [97; 0xFF]%Z); wit.
Defined.

Lemma update_file_returns_none_cex : snd w1 = Ok PNone /\ st_head (fst w1) = 3.
Proof. vm_compute. split; reflexivity. Qed.


Lemma read_back_newlines_cex :
  snd w3 = Ok PNone /\ get_contents_at_revision (fst w3) "a.txt" HEAD = Ok [98%Z; 10%Z].
Proof. vm_compute. split; reflexivity. Qed.


Lemma idna_read_raises_cex :
  git_show s0 HEAD "a.txt" = Some [97%Z] /\
  get_contents_call true s0 "a.txt" HEAD Idna = Raise UnicodeError None.
Proof. vm_compute. split; reflexivity. Qed.

Lemma double_delete_cex :
  snd del1 = Ok PNone /\ snd del2 = Raise (CalledProcessError (LWorktree 3) GitRm 128) None.
Proof. vm_compute. split; reflexivity. Qed.

Lemma history_extra_line_cex :
  snd (history log_extra_line) = None /\ spec_record_shape log_extra_line = false.
Proof. vm_compute. split; reflexivity. Qed.

Lemma overlapping_writes_cex :
  outcome <$> snd overlap !! 0 = Some (Ok PNone) /\
  outcome <$> snd overlap !! 1 = Some (Raise (CalledProcessError LRepo GitCherryPick 128) None).
Proof. vm_compute. split; reflexivity. Qed.

Lemma uf_state_facts st n a c rs m st' th :
  wf st -> update_file_run st n a c rs m = (st', th) ->
  (forall k x, st_objects st !! k = Some x -> st_objects st' !! k = Some x) /\
  st_readable st' = st_readable st /\ st_index_lock st' = st_index_lock st /\
  st_cp_pending st' = st_cp_pending st /\
  ((forall v, outcome th <> Ok v) -> st_head st' = st_head st).
Proof.
  intros Hw E. pose proof (update_file_paths st n a c rs m Hw) as P. rewrite E in P.
  pose proof Hw as (Wo & _ & _).
  assert (Hlt : forall k x, st_objects st !! k = Some x -> k < st_next st).
  { intros k x Hk. apply (below_next st k Wo). eexists; exact Hk. }
  inversion P; subst;
    unfold st_closed, st_open, st_session, set_worktree, mkdtemp, add_commit;
    cbn [fst snd st_objects st_readable st_index_lock st_cp_pending st_head st_next outcome th_phase];
    (split; [intros k x Hk; pose proof (Hlt k x Hk); rewrite ?lookup_insert_ne by lia; exact Hk|]);
    split_and!; try reflexivity; try congruence.
Qed.

Lemma uf_facts st n a c rs m st' r :
  wf st -> update_file st n a c rs m = (st', r) ->
  (forall k x, st_objects st !! k = Some x -> st_objects st' !! k = Some x) /\
  st_readable st' = st_readable st /\ st_index_lock st' = st_index_lock st /\
  st_cp_pending st' = st_cp_pending st /\
  ((forall v, r <> Ok v) -> st_head st' = st_head st).
Proof.
  intros Hw. unfold update_file. destruct (update_file_run st n a c rs m) as [s th] eqn:E.
  intros [= <- <-]. exact (uf_state_facts st n a c rs m s th Hw E).
Qed.

Lemma git_show_same st st' rs k r :
  st_readable st' = st_readable st ->
  resolve st' rs = Some r -> resolve st rs = Some r -> tree_at st' r = tree_at st r ->
  git_show st' rs k = git_show st rs k.
Proof. intros R H1 H2 T. unfold git_show. rewrite R, H1, H2. cbn. rewrite T. reflexivity. Qed.


(** [update_file] never removes or changes a commit of the repository: the object database only grows. *)
Lemma update_file_objects_grow st n a c rs m st' r :
  wf st -> update_file st n a c rs m = (st', r) -> st_objects st ⊆ st_objects st'.
Proof.
  intros Hw E. destruct (uf_facts _ _ _ _ _ _ _ _ Hw E) as (Ho & _).
  apply map_subseteq_spec. exact Ho.
Qed.

(** A call run alone leaves [index.lock] and a pending cherry-pick of the shared repository as it found them. *)
Lemma update_file_releases_locks st n a c rs m st' r :
  wf st -> update_file st n a c rs m = (st', r) ->
  st_index_lock st' = st_index_lock st /\ st_cp_pending st' = st_cp_pending st.
Proof. intros Hw E. destruct (uf_facts _ _ _ _ _ _ _ _ Hw E) as (_ & _ & L & P & _). auto. Qed.

(** A failed call leaves the shared HEAD where it was. *)
Lemma update_file_failure_keeps_head st n a c rs m st' e ctx :
  wf st -> update_file st n a c rs m = (st', Raise e ctx) -> st_head st' = st_head st.
Proof. intros Hw E. destruct (uf_facts _ _ _ _ _ _ _ _ Hw E) as (_ & _ & _ & _ & H). apply H. discriminate. Qed.

(** After a failed call every document reads at HEAD as it did before. *)
Lemma update_file_failure_invisible st n a c rs m st' e ctx k :
  wf st -> update_file st n a c rs m = (st', Raise e ctx) ->
  get_contents_at_revision st' k HEAD = get_contents_at_revision st k HEAD.
Proof.
  intros Hw E. destruct (uf_facts _ _ _ _ _ _ _ _ Hw E) as (Ho & R & _ & _ & H).
  specialize (H ltac:(discriminate)). pose proof Hw as (_ & [x Hx] & _).
  assert (T : tree_at st' (st_head st) = tree_at st (st_head st)).
  { unfold tree_at. rewrite (Ho _ _ Hx), Hx. reflexivity. }
  unfold get_contents_at_revision.
  rewrite (git_show_same st st' HEAD k (st_head st) R) by (cbn; congruence || assumption).
  reflexivity.
Qed.

(** Every document reads at an existing revision as it did before the call, whatever the call's outcome. *)
Lemma update_file_keeps_old_revisions st n a c rs m st' res r k :
  wf st -> update_file st n a c rs m = (st', res) -> is_Some (st_objects st !! r) ->
  get_contents_at_revision st' k (Rev r) = get_contents_at_revision st k (Rev r).
Proof.
  intros Hw E [x Hx]. destruct (uf_facts _ _ _ _ _ _ _ _ Hw E) as (Ho & R & _).
  assert (T : tree_at st' r = tree_at st r).
  { unfold tree_at. rewrite (Ho _ _ Hx), Hx. reflexivity. }
  assert (R1 : resolve st' (Rev r) = Some r) by (cbn; rewrite (Ho _ _ Hx); reflexivity).
  assert (R2 : resolve st (Rev r) = Some r) by (cbn; rewrite Hx; reflexivity).
  unfold get_contents_at_revision. rewrite (git_show_same st st' (Rev r) k r R R1 R2 T). reflexivity.
Qed.



Lemma update_file_ok_tree st n a c rs m st' th v :
  wf st -> update_file_run st n a c rs m = (st', th) -> outcome th = Ok v ->
  exists b tb files ht T,
    st_readable st = true /\ resolve st rs = Some b /\ tree_at st b = Some tb /\
    stage_tree tb n c = Some files /\ files <> tb /\ tree_at st (st_head st) = Some ht /\
    cherry_pick_tree tb ht files = Some T /\
    st_readable st' = true /\ tree_at st' (st_head st') = Some T /\ th_published th = st_head st'.
Proof.
  intros Hw E Ho. pose proof (update_file_paths st n a c rs m Hw) as P. rewrite E in P.
  inversion P; subst; cbn in Ho; try discriminate Ho.
  do 5 eexists. split_and!; try eassumption; try reflexivity.
  unfold tree_at. cbn. rewrite lookup_insert_eq. reflexivity.
Qed.


(** After a successful delete, reading the document at HEAD raises [NotFoundError]. *)
Lemma update_file_delete_then_missing st n a rs m st' th v :
  wf st -> update_file_run st n a None rs m = (st', th) -> outcome th = Ok v ->
  get_contents_at_revision st' n HEAD = Raise NotFoundError (Some (CalledProcessError LRepo GitShow 128)).
Proof.
  intros Hw E Ho.
  destruct (update_file_ok_tree _ _ _ _ _ _ _ _ _ Hw E Ho)
    as (b & tb & files & ht & T & R & Hb & Htb & Hf & _ & Hh & HT & R' & HT' & _).
  rewrite (get_contents_tree st' HEAD (st_head st') T n R' eq_refl HT').
  destruct (stage_tree_none _ _ _ Hf) as (x & Hx & ->).
  rewrite (cherry_pick_theirs tb ht (delete n tb) T n HT).
  - rewrite lookup_delete_eq. reflexivity.
  - rewrite lookup_delete_eq, Hx. discriminate.
Qed.

(** Writing a document with the bytes it already has at the base revision fails at [git commit] (exit 1, nothing to commit), and the session is cleaned up; objects, head and worktrees are unchanged. *)
Lemma update_file_unchanged st n a cc rs m b tb bs st' r :
  wf st -> st_readable st = true -> resolve st rs = Some b -> tree_at st b = Some tb ->
  contents_bytes cc = Some bs -> tb !! n = Some bs ->
  update_file st n a (Some cc) rs m = (st', r) ->
  r = Raise (CalledProcessError (LWorktree (st_next_dir st)) GitCommit 1) None /\
  st_objects st' = st_objects st /\ st_head st' = st_head st /\ st_worktrees st' = st_worktrees st.
Proof.
  intros Hw R Hb Htb Hc Hn. unfold update_file.
  rewrite (update_file_unchanged_run st n a cc rs m b tb bs) by assumption.
  intros [= <- <-]. cbn. split_and!; try reflexivity.
  apply delete_id. destruct Hw as (_ & _ & Ww). apply Ww. lia.
Qed.

(** When the change is already present at the current head, the rebase cherry-pick is empty and fails with exit 1; the head is unchanged and the session worktree is removed. *)
Lemma update_file_already_applied st n a c rs m b tb files ht st' r :
  wf st -> st_readable st = true -> plain_name n = true ->
  resolve st rs = Some b -> tree_at st b = Some tb ->
  stage_tree tb n c = Some files -> files <> tb ->
  tree_at st (st_head st) = Some ht -> cherry_pick_tree tb ht files = Some ht ->
  update_file st n a c rs m = (st', r) ->
  r = Raise (CalledProcessError (LWorktree (st_next_dir st)) GitCherryPick 1) None /\
  st_head st' = st_head st /\ st_worktrees st' = st_worktrees st.
Proof.
  intros Hw R _ Hb Htb Hf Hne Hh HT. unfold update_file.
  rewrite (update_file_empty_pick_run st n a c rs m b tb files ht) by assumption.
  intros [= <- <-]. cbn. split_and!; try reflexivity.
  apply delete_id. destruct Hw as (_ & _ & Ww). apply Ww. lia.
Qed.


(** When the repository cannot be read or the base revision does not exist, [git worktree add] fails with exit 128, before anything else is touched. *)
Lemma update_file_open_failure st n a c rs m st' r :
  st_readable st = false \/ resolve st rs = None ->
  update_file st n a c rs m = (st', r) ->
  r = Raise (CalledProcessError LRepo GitWorktreeAdd 128) None /\
  st_objects st' = st_objects st /\ st_head st' = st_head st /\ st_worktrees st' = st_worktrees st.
Proof.
  intros H. unfold update_file. rewrite (update_file_add_fail_run st n a c rs m H).
  intros [= <- <-]. cbn. split_and!; reflexivity.
Qed.


(** UTF-8 decoding, strict or with replacement, inverts encoding. *)
Lemma utf8_round_trip s bs :
  encode s = Some bs -> decode Strict bs = Ok s /\ decode Replace bs = Ok s.
Proof. intros H. split; apply (decode_encode _ _ _ H). Qed.


Lemma universal_newlines_no_cr_aux k s : length s <= k -> ~ In 13%Z (universal_newlines s).
Proof.
  revert s. induction k as [|k IH]; intros s Hl.
  - destruct s; [intros []|cbn in Hl; lia].
  - destruct s as [|c r]; [intros []|]. cbn in Hl.
    destruct (Z.eq_dec c 13%Z) as [->|Hc].
    + destruct r as [|c2 r].
      * cbn. intros [H|[]]. discriminate.
      * destruct (Z.eq_dec c2 10%Z) as [->|Hc2].
        -- cbn [universal_newlines]. intros [H|H]; [discriminate|]. apply (IH r); [cbn in Hl; lia|exact H].
        -- assert (E : universal_newlines (13%Z :: c2 :: r) = 10%Z :: universal_newlines (c2 :: r)).
           { destruct c2 as [|p|p]; try reflexivity.
             repeat (destruct p as [p|p|]; try reflexivity). exfalso. apply Hc2. reflexivity. }
           rewrite E. intros [H|H]; [discriminate|]. apply (IH (c2 :: r)); [cbn in *; lia|exact H].
    + rewrite (universal_newlines_other c r Hc). intros [H|H]; [congruence|]. apply (IH r); [lia|exact H].
Qed.

(** A successful read never returns a carriage return: the text-mode pipe translates them all. *)
Lemma get_contents_no_cr st n rs s :
  get_contents_at_revision st n rs = Ok s -> ~ In 13%Z s.
Proof.
  unfold get_contents_at_revision. destruct (git_show st rs n) as [bs|]; [|discriminate].
  cbn. intros [= <-]. exact (universal_newlines_no_cr_aux _ _ (le_n _)).
Qed.

(** [history] of two logs, the first well formed, yields the records of the first and then those of the second, and ends as the second does. *)
Lemma history_app l1 l2 :
  six_line_groups l1 = true ->
  history (l1 ++ l2) = (fst (history l1) ++ fst (history l2), snd (history l2)).
Proof.
  intros H. remember (length l1) as k eqn:Ek. revert l1 Ek H.
  induction k as [k IH] using lt_wf_ind. intros l1 Ek H.
  destruct l1 as [|l1 [|l2' [|l3 [|l4 [|l5 [|stats rest]]]]]]; try discriminate H.
  - cbn. destruct (history l2); reflexivity.
  - cbn [six_line_groups] in H. apply andb_prop in H as [Hs Hr].
    cbn [app history]. unfold stats_ok in Hs.
    destruct (split stats) as [|i [|dl fs]]; try discriminate Hs.
    destruct (int_of_string i) as [x|]; [|discriminate Hs].
    destruct (int_of_string dl) as [y|]; [|discriminate Hs].
    rewrite (IH (length rest)) by (auto; subst k; cbn; lia).
    destruct (history rest) as [rs e]. cbn. reflexivity.
Qed.

(** On a well-formed log [history] yields one record per six lines. *)
Lemma history_count log :
  six_line_groups log = true -> 6 * length (fst (history log)) = length log.
Proof.
  remember (length log) as k eqn:Ek. revert log Ek.
  induction k as [k IH] using lt_wf_ind. intros log Ek H.
  destruct log as [|l1 [|l2 [|l3 [|l4 [|l5 [|stats rest]]]]]]; try discriminate H.
  - subst k. reflexivity.
  - cbn [six_line_groups] in H. apply andb_prop in H as [Hs Hr].
    cbn [history]. unfold stats_ok in Hs.
    destruct (split stats) as [|i [|dl fs]]; try discriminate Hs.
    destruct (int_of_string i) as [x|]; [|discriminate Hs].
    destruct (int_of_string dl) as [y|]; [|discriminate Hs].
    pose proof (IH (length rest) ltac:(subst k; cbn; lia) rest eq_refl Hr) as IHr.
    destruct (history rest) as [rs e]. cbn [fst length] in *. subst k. cbn. lia.
Qed.




Lemma update_file_objects_grow_witness : st_objects s1 ⊆ st_objects (fst w2).
Proof. apply (update_file_objects_grow s1 "a.txt" auth (Some (CStr [99%Z])) (Rev 0) "" (fst w2) (snd w2)); wit. Defined.

Lemma update_file_releases_locks_witness :
  st_index_lock (fst w2) = st_index_lock s1 /\ st_cp_pending (fst w2) = st_cp_pending s1.
Proof. apply (update_file_releases_locks s1 "a.txt" auth (Some (CStr [99%Z])) (Rev 0) "" (fst w2) (snd w2)); wit. Defined.

Lemma update_file_failure_keeps_head_witness : st_head (fst w2) = st_head s1.
Proof.
  apply (update_file_failure_keeps_head s1 "a.txt" auth (Some (CStr [99%Z])) (Rev 0) "" (fst w2)
           (CalledProcessError LRepo GitWorktreeRemove 128)
           (Some (CalledProcessError (LWorktree 2) GitCherryPick 1))); wit.
Defined.

Lemma update_file_failure_invisible_witness :
  get_contents_at_revision (fst w2) "a.txt" HEAD = get_contents_at_revision s1 "a.txt" HEAD.
Proof.
  apply (update_file_failure_invisible s1 "a.txt" auth (Some (CStr [99%Z])) (Rev 0) "" (fst w2)
           (CalledProcessError LRepo GitWorktreeRemove 128)
           (Some (CalledProcessError (LWorktree 2) GitCherryPick 1))); wit.
Defined.

Lemma update_file_keeps_old_revisions_witness :
  get_contents_at_revision s1 "a.txt" (Rev 0) = get_contents_at_revision s0 "a.txt" (Rev 0).
Proof.
  apply (update_file_keeps_old_revisions s0 "a.txt" auth (Some (CStr [98%Z])) HEAD "" s1 (snd w1)); wit.
Defined.


Lemma update_file_delete_then_missing_witness :
  get_contents_at_revision (fst (update_file_run s1 "a.txt" auth None HEAD "")) "a.txt" HEAD =
  Raise NotFoundError (Some (CalledProcessError LRepo GitShow 128)).
Proof.
  apply (update_file_delete_then_missing s1 "a.txt" auth HEAD ""
           (fst (update_file_run s1 "a.txt" auth None HEAD ""))
           (snd (update_file_run s1 "a.txt" auth None HEAD "")) PNone); wit.
Defined.

Lemma update_file_unchanged_witness :
  snd (update_file s0 "a.txt" auth (Some (CBytes [97%Z])) HEAD "") =
    Raise (CalledProcessError (LWorktree (st_next_dir s0)) GitCommit 1) None /\
  st_objects (fst (update_file s0 "a.txt" auth (Some (CBytes [97%Z])) HEAD "")) = st_objects s0 /\
  st_head (fst (update_file s0 "a.txt" auth (Some (CBytes [97%Z])) HEAD "")) = st_head s0 /\
  st_worktrees (fst (update_file s0 "a.txt" auth (Some (CBytes [97%Z])) HEAD "")) = st_worktrees s0.
Proof.
  apply (update_file_unchanged s0 "a.txt" auth (CBytes [97%Z]) HEAD "" 0 {["a.txt" := [97%Z]]} [97%Z]
           (fst (update_file s0 "a.txt" auth (Some (CBytes [97%Z])) HEAD ""))
           (snd (update_file s0 "a.txt" auth (Some (CBytes [97%Z])) HEAD ""))); wit.
Defined.

Lemma update_file_already_applied_witness :
  snd (update_file s1 "a.txt" auth (Some (CStr [98%Z])) (Rev 0) "") =
    Raise (CalledProcessError (LWorktree (st_next_dir s1)) GitCherryPick 1) None /\
  st_head (fst (update_file s1 "a.txt" auth (Some (CStr [98%Z])) (Rev 0) "")) = st_head s1 /\
  st_worktrees (fst (update_file s1 "a.txt" auth (Some (CStr [98%Z])) (Rev 0) "")) = st_worktrees s1.
Proof.
  apply (update_file_already_applied s1 "a.txt" auth (Some (CStr [98%Z])) (Rev 0) "" 0
           {["a.txt" := [97%Z]]} {["a.txt" := [98%Z]]} {["a.txt" := [98%Z]]}
           (fst (update_file s1 "a.txt" auth (Some (CStr [98%Z])) (Rev 0) ""))
           (snd (update_file s1 "a.txt" auth (Some (CStr [98%Z])) (Rev 0) ""))); wit.
Defined.


Lemma update_file_open_failure_witness :
  snd (update_file s0 "a.txt" auth (Some (CStr [98%Z])) (Rev 5) "") =
    Raise (CalledProcessError LRepo GitWorktreeAdd 128) None /\
  st_objects (fst (update_file s0 "a.txt" auth (Some (CStr [98%Z])) (Rev 5) "")) = st_objects s0 /\
  st_head (fst (update_file s0 "a.txt" auth (Some (CStr [98%Z])) (Rev 5) "")) = st_head s0 /\
  st_worktrees (fst (update_file s0 "a.txt" auth (Some (CStr [98%Z])) (Rev 5) "")) = st_worktrees s0.
Proof.
  apply (update_file_open_failure s0 "a.txt" auth (Some (CStr [98%Z])) (Rev 5) ""
           (fst (update_file s0 "a.txt" auth (Some (CStr [98%Z])) (Rev 5) ""))
           (snd (update_file s0 "a.txt" auth (Some (CStr [98%Z])) (Rev 5) "")));
  first [right; reflexivity | wit].
Defined.


Lemma utf8_round_trip_witness :
  decode Strict [97; 0xC3; 0xA9; 0xE2; 0x82; 0xAC; 0xF0; 0x9F; 0x98; 0x80]%Z = Ok [97; 0xE9; 0x20AC; 0x1F600]%Z /\
  decode Replace [97; 0xC3; 0xA9; 0xE2; 0x82; 0xAC; 0xF0; 0x9F; 0x98; 0x80]%Z = Ok [97; 0xE9; 0x20AC; 0x1F600]%Z.
Proof.
  apply (utf8_round_trip [97; 0xE9; 0x20AC; 0x1F600]%Z [97; 0xC3; 0xA9; 0xE2; 0x82; 0xAC; 0xF0; 0x9F; 0x98; 0x80]%Z); wit.
Defined.

Lemma get_contents_no_cr_witness : ~ In 13%Z [98; 10]%Z.
Proof. apply (get_contents_no_cr (fst w3) "a.txt" HEAD); wit. Defined.

Lemma history_app_witness :
  history (firstn 6 log_two ++ log_extra_line) =
  (fst (history (firstn 6 log_two)) ++ fst (history log_extra_line), snd (history log_extra_line)).
Proof. apply (history_app (firstn 6 log_two) log_extra_line); wit. Defined.

Lemma history_count_witness : 6 * length (fst (history log_two)) = length log_two.
Proof. apply (history_count log_two); wit. Defined.


End GitkiFacts.
